(** * pyromb: catchment graph construction and downstream resolution

    A shallow embedding of [src/pyromb/core/catchment.py] (class [Catchment])
    and of [WBNM._getDsIndex] from [qgis2rorb/model/wbnm.py], with the
    properties of their specification.

    Python [float] is IEEE 754 binary64, which is what Rocq's primitive
    [float] is; comparisons are [PrimFloat.ltb] and [PrimFloat.leb].
    [math.hypot] belongs to the Python standard library and is taken as a
    parameter [hypot] of the development. *)

From Stdlib Require Import ZArith Lia Bool Ascii String DecimalString.
From Stdlib Require Import Floats.
From stdpp Require Import base list.

Local Open Scope Z_scope.
Set Warnings "-inexact-float".

(** ** Data model *)

(** [attributes/node.py]: a named point; [coordinates] returns [(x, y)]. *)
Record Node := mkNode { name : string; x : float; y : float }.

Definition coordinates (n : Node) : float * float := (x n, y n).

(** Modelled from the constructor calls [Basin(id, x, y, area, fi)] and
    [Confluence(id, x, y, out)] of [gis/builder.py] and the attributes read
    by [serialise.py]: the two class files are not among the sources.  Both
    are subclasses of [Node]. *)
Record Basin := mkBasin { basin_node : Node; area : float; fi : float }.
Record Confluence := mkConfluence { confluence_node : Node; isOut : bool }.

(** The elements of [Catchment._vertices]; the constructor is the runtime
    class that [isinstance] tests. *)
Inductive Vertex :=
| VConfluence (c : Confluence)
| VBasin (b : Basin).

Definition vertex_node (v : Vertex) : Node :=
  match v with
  | VConfluence c => confluence_node c
  | VBasin b => basin_node b
  end.

Definition vertex_coordinates (v : Vertex) : float * float :=
  coordinates (vertex_node v).

(** [isinstance(vertex, Confluence) and vertex.isOut] *)
Definition is_outlet (vertex : Vertex) : bool :=
  match vertex with
  | VConfluence c => isOut c
  | VBasin _ => false
  end.

(** [attributes/reach.py] *)
Inductive ReachType := NATURAL | UNLINED | LINED | DROWNED.

Record Reach := mkReach {
  reach_name : string;
  _vector : list Node;
  reachType : ReachType;
  slope : float
}.

(** Python exceptions that the modelled code can raise. *)
Inductive exn :=
| IndexError
| KeyError (msg : string)
| ValueError (msg : string).

Inductive result (A : Type) :=
| Ok (a : A)
| Raise (e : exn).
Arguments Ok {A} a.
Arguments Raise {A} e.

(** Exceptions propagate through stdpp's monadic notation [x ← r; k]. *)
#[global] Instance result_ret : MRet result := fun A a => Ok a.
#[global] Instance result_bind : MBind result := fun A B k r =>
  match r with
  | Ok a => k a
  | Raise e => Raise e
  end.

(** [Reach.getPoint]: [self._vector[0]] for ['us'], [self._vector[-1]] for
    ['ds']; indexing an empty list raises [IndexError]. *)
Definition getPoint (self : Reach) (direction : string) : result Node :=
  if String.eqb direction "us" then
    match _vector self with
    | p :: _ => Ok p
    | [] => Raise IndexError
    end
  else if String.eqb direction "ds" then
    match last (_vector self) with
    | Some p => Ok p
    | None => Raise IndexError
    end
  else Raise (KeyError "Node direction not properly defined: expected 'us' or 'ds'.").

Definition getStart (self : Reach) : result Node := getPoint self "us".
Definition getEnd (self : Reach) : result Node := getPoint self "ds".

(** *** numpy integer matrices, as lists of rows *)

Abbreviation matrix := (list (list Z)).

Definition np_full (rows cols : nat) (v : Z) : matrix :=
  replicate rows (replicate cols v).

Definition np_zeros (rows cols : nat) : matrix := np_full rows cols 0.

(** A numpy index into an axis of length [len]: a negative index counts from
    the end, and an index outside [-len, len) raises [IndexError]. *)
Definition np_index (len : nat) (i : Z) : result nat :=
  if (0 <=? i) && (i <? Z.of_nat len) then Ok (Z.to_nat i)
  else if (- Z.of_nat len <=? i) && (i <? 0) then Ok (Z.to_nat (i + Z.of_nat len))
  else Raise IndexError.

Definition list_get {A} (l : list A) (i : Z) : result A :=
  k ← np_index (length l) i;
  match l !! k with
  | Some a => Ok a
  | None => Raise IndexError
  end.

(** [m[i, j]] *)
Definition np_get (m : matrix) (i j : Z) : result Z :=
  row ← list_get m i;
  list_get row j.

(** [m[i, j] = v] *)
Definition np_set (m : matrix) (i j : Z) (v : Z) : result matrix :=
  r ← np_index (length m) i;
  row ← list_get m i;
  c ← np_index (length row) j;
  Ok (<[r := <[c := v]> row]> m).

(** *** The catchment object *)

Record Catchment := mkCatchment {
  _edges : list Reach;
  _vertices : list Vertex;
  _incidenceMatrixDS : matrix;
  _incidenceMatrixUS : matrix;
  _out_node_index : Z;
  _endSentinel : Z
}.

(** [Catchment.__init__]: a [None] argument is an absent list. *)
Definition Catchment_init (confluences : option (list Confluence))
    (basins : option (list Basin)) (reaches : option (list Reach)) : Catchment :=
  let edges := match reaches with Some r => r | None => [] end in
  let vertices0 : list Vertex := [] in
  let vertices1 :=
    match confluences with
    | Some ((_ :: _) as cs) => vertices0 ++ map VConfluence cs
    | _ => vertices0
    end in
  let vertices2 :=
    match basins with
    | Some ((_ :: _) as bs) => vertices1 ++ map VBasin bs
    | _ => vertices1
    end in
  {| _edges := edges;
     _vertices := vertices2;
     _incidenceMatrixDS := [];
     _incidenceMatrixUS := [];
     _out_node_index := -1;
     _endSentinel := -1 |}.

(** ** Vertex lookup and [connect] *)

Section Connectivity.

(** [math.hypot] of the Python standard library. *)
Variable hypot : float -> float -> float.

(** The distance computed in both lookup loops:
    [math.hypot(vertex_coords[0] - coords[0], vertex_coords[1] - coords[1])]. *)
Definition distance (vertex_coords coords : float * float) : float :=
  hypot (PrimFloat.sub (fst vertex_coords) (fst coords))
        (PrimFloat.sub (snd vertex_coords) (snd coords)).

(** Default value of [tol] in [_find_closest_vertex]; as in Python, the
    decimal literal denotes the nearest binary64 value. *)
Definition _find_closest_vertex_tol : float := 1e-6%float.

(** Default value of [tol] in [_find_vertex_by_coordinates]. *)
Definition _find_vertex_by_coordinates_tol : float := 1e-1%float.

(** The [for] loop of [_find_closest_vertex] over
    [enumerate(self._vertices)], from position [vertex_idx] on, with the
    loop variables [min_distance] and [closest_vertex_idx]. *)
Fixpoint closest_loop (node_coords : float * float) (vertices : list Vertex)
    (vertex_idx : Z) (min_distance : float) (closest_vertex_idx : Z) : float * Z :=
  match vertices with
  | [] => (min_distance, closest_vertex_idx)
  | vertex :: rest =>
      let vertex_coords := vertex_coordinates vertex in
      let d := distance vertex_coords node_coords in
      if PrimFloat.ltb d min_distance
      then closest_loop node_coords rest (vertex_idx + 1) d vertex_idx
      else closest_loop node_coords rest (vertex_idx + 1) min_distance closest_vertex_idx
  end.

(** [Catchment._find_closest_vertex] *)
Definition _find_closest_vertex (self : Catchment) (node : Node) (tol : float) : Z :=
  let min_distance := infinity in
  let closest_vertex_idx := -1 in
  let node_coords := coordinates node in
  let '(min_distance, closest_vertex_idx) :=
    closest_loop node_coords (_vertices self) 0 min_distance closest_vertex_idx in
  if PrimFloat.ltb tol min_distance then -1 else closest_vertex_idx.

(** The [for] loop of [_find_vertex_by_coordinates]. *)
Fixpoint by_coordinates_loop (coords : float * float) (tol : float)
    (vertices : list Vertex) (idx : Z) : Z :=
  match vertices with
  | [] => -1
  | vertex :: rest =>
      let vertex_coords := vertex_coordinates vertex in
      let d := distance vertex_coords coords in
      if PrimFloat.leb d tol then idx
      else by_coordinates_loop coords tol rest (idx + 1)
  end.

(** [Catchment._find_vertex_by_coordinates] *)
Definition _find_vertex_by_coordinates (self : Catchment)
    (coords : float * float) (tol : float) : Z :=
  by_coordinates_loop coords tol (_vertices self) 0.

(** The [for] loop of [_find_out_node]: the index of the first vertex that
    is a [Confluence] with [isOut] set. *)
Fixpoint out_node_loop (vertices : list Vertex) (idx : Z) : option Z :=
  match vertices with
  | [] => None
  | vertex :: rest =>
      if is_outlet vertex then Some idx else out_node_loop rest (idx + 1)
  end.

(** [Catchment._find_out_node]: stores the index in [self] or raises. *)
Definition _find_out_node (self : Catchment) : result unit * Catchment :=
  match out_node_loop (_vertices self) 0 with
  | Some idx =>
      (Ok (),
       {| _edges := _edges self;
          _vertices := _vertices self;
          _incidenceMatrixDS := _incidenceMatrixDS self;
          _incidenceMatrixUS := _incidenceMatrixUS self;
          _out_node_index := idx;
          _endSentinel := _endSentinel self |})
  | None => (Raise (ValueError "No 'out' node found in confluences."), self)
  end.

(** The first loop of [connect] (and the loop of
    [_initialize_connection_matrix]): the connection matrix. *)
Fixpoint connection_loop (self : Catchment) (edges : list Reach) (edge_idx : Z)
    (connection_matrix : matrix) : result matrix :=
  match edges with
  | [] => Ok connection_matrix
  | edge :: rest =>
      start_node ← getStart edge;
      end_node ← getEnd edge;
      let closest_start_idx := _find_closest_vertex self start_node _find_closest_vertex_tol in
      let closest_end_idx := _find_closest_vertex self end_node _find_closest_vertex_tol in
      if (closest_start_idx =? -1) || (closest_end_idx =? -1)
      then connection_loop self rest (edge_idx + 1) connection_matrix
      else
        connection_matrix ← np_set connection_matrix closest_start_idx edge_idx 1;
        connection_matrix ← np_set connection_matrix closest_end_idx edge_idx 2;
        connection_loop self rest (edge_idx + 1) connection_matrix
  end.

(** [Catchment._initialize_connection_matrix] *)
Definition _initialize_connection_matrix (self : Catchment)
    (num_vertices num_edges : nat) : result matrix :=
  connection_loop self (_edges self) 0 (np_zeros num_vertices num_edges).

(** The second loop of [connect]: both incidence matrices at once. *)
Fixpoint incidence_loop (self : Catchment) (edges : list Reach) (edge_idx : Z)
    (incidence_matrix_ds incidence_matrix_us : matrix) : result (matrix * matrix) :=
  match edges with
  | [] => Ok (incidence_matrix_ds, incidence_matrix_us)
  | edge :: rest =>
      start_node ← getStart edge;
      let start_idx := _find_closest_vertex self start_node _find_closest_vertex_tol in
      end_node ← getEnd edge;
      let end_idx := _find_closest_vertex self end_node _find_closest_vertex_tol in
      if negb (start_idx =? -1) && negb (end_idx =? -1)
      then
        incidence_matrix_ds ← np_set incidence_matrix_ds start_idx edge_idx end_idx;
        incidence_matrix_us ← np_set incidence_matrix_us end_idx edge_idx start_idx;
        incidence_loop self rest (edge_idx + 1) incidence_matrix_ds incidence_matrix_us
      else incidence_loop self rest (edge_idx + 1) incidence_matrix_ds incidence_matrix_us
  end.

(** [Catchment.connect]: the value returned (or the exception raised) and
    the object afterwards. *)
Definition connect (self : Catchment) : result (matrix * matrix) * Catchment :=
  let num_vertices := length (_vertices self) in
  let num_edges := length (_edges self) in
  match connection_loop self (_edges self) 0 (np_zeros num_vertices num_edges) with
  | Raise e => (Raise e, self)
  | Ok connection_matrix =>
      match _find_out_node self with
      | (Raise e, self) => (Raise e, self)
      | (Ok _, self) =>
          let incidence_matrix_ds := np_full num_vertices num_edges (_endSentinel self) in
          let incidence_matrix_us := np_full num_vertices num_edges (_endSentinel self) in
          match incidence_loop self (_edges self) 0 incidence_matrix_ds incidence_matrix_us with
          | Raise e => (Raise e, self)
          | Ok (incidence_matrix_ds, incidence_matrix_us) =>
              (Ok (incidence_matrix_ds, incidence_matrix_us),
               {| _edges := _edges self;
                  _vertices := _vertices self;
                  _incidenceMatrixDS := incidence_matrix_ds;
                  _incidenceMatrixUS := incidence_matrix_us;
                  _out_node_index := _out_node_index self;
                  _endSentinel := _endSentinel self |})
          end
      end
  end.


(** *** [_build_incidence_matrices]: the two breadth-first searches

    The method is defined in [catchment.py] but [connect] does not call it.
    A [deque] is a list: [popleft] takes the head, [append] adds at the
    end.  The [while] loops take a bound on their number of iterations;
    [None] means the bound was reached with the queue not yet empty. *)

(** Body of [for edge_idx in range(num_edges)] of the upstream search. *)
Fixpoint us_edge_loop (self : Catchment) (connection_matrix : matrix)
    (current_vertex : Z) (edge_idxs : list Z)
    (colour_us incidence_matrix_us : matrix) (queue_us : list (Z * Z))
    : result (matrix * matrix * list (Z * Z)) :=
  match edge_idxs with
  | [] => Ok (colour_us, incidence_matrix_us, queue_us)
  | edge_idx :: rest =>
      connection_type ← np_get connection_matrix current_vertex edge_idx;
      if negb (connection_type =? 1)
      then us_edge_loop self connection_matrix current_vertex rest
             colour_us incidence_matrix_us queue_us
      else
        colour ← np_get colour_us current_vertex edge_idx;
        if negb (colour =? 0)
        then us_edge_loop self connection_matrix current_vertex rest
               colour_us incidence_matrix_us queue_us
        else
          colour_us ← np_set colour_us current_vertex edge_idx 1;
          edge ← list_get (_edges self) edge_idx;
          downstream_node ← getEnd edge;
          let downstream_vertex_coords := coordinates downstream_node in
          let downstream_vertex_idx :=
            _find_vertex_by_coordinates self downstream_vertex_coords
              _find_vertex_by_coordinates_tol in
          if downstream_vertex_idx =? -1
          then us_edge_loop self connection_matrix current_vertex rest
                 colour_us incidence_matrix_us queue_us
          else
            incidence_matrix_us ←
              np_set incidence_matrix_us current_vertex edge_idx downstream_vertex_idx;
            us_edge_loop self connection_matrix current_vertex rest
              colour_us incidence_matrix_us
              (queue_us ++ [(downstream_vertex_idx, edge_idx)])
  end.

(** [while queue_us:] *)
Fixpoint us_search (bound : nat) (self : Catchment) (connection_matrix : matrix)
    (num_edges : nat) (queue_us : list (Z * Z)) (colour_us incidence_matrix_us : matrix)
    : result (option matrix) :=
  match queue_us with
  | [] => Ok (Some incidence_matrix_us)
  | (current_vertex, incoming_edge) :: queue_us =>
      match bound with
      | O => Ok None
      | S bound =>
          '(colour_us, incidence_matrix_us, queue_us) ←
            us_edge_loop self connection_matrix current_vertex
              (seqZ 0 (Z.of_nat num_edges)) colour_us incidence_matrix_us queue_us;
          us_search bound self connection_matrix num_edges
            queue_us colour_us incidence_matrix_us
      end
  end.

(** Body of [for edge_idx in range(num_edges)] of the downstream search. *)
Fixpoint ds_edge_loop (self : Catchment) (connection_matrix : matrix)
    (current_vertex : Z) (edge_idxs : list Z)
    (colour_ds incidence_matrix_ds : matrix) (queue_ds : list (Z * Z))
    : result (matrix * matrix * list (Z * Z)) :=
  match edge_idxs with
  | [] => Ok (colour_ds, incidence_matrix_ds, queue_ds)
  | edge_idx :: rest =>
      connection_type ← np_get connection_matrix current_vertex edge_idx;
      if negb (connection_type =? 2)
      then ds_edge_loop self connection_matrix current_vertex rest
             colour_ds incidence_matrix_ds queue_ds
      else
        colour ← np_get colour_ds current_vertex edge_idx;
        if negb (colour =? 0)
        then ds_edge_loop self connection_matrix current_vertex rest
               colour_ds incidence_matrix_ds queue_ds
        else
          colour_ds ← np_set colour_ds current_vertex edge_idx 1;
          edge ← list_get (_edges self) edge_idx;
          upstream_node ← getStart edge;
          let upstream_vertex_coords := coordinates upstream_node in
          let upstream_vertex_idx :=
            _find_vertex_by_coordinates self upstream_vertex_coords
              _find_vertex_by_coordinates_tol in
          if upstream_vertex_idx =? -1
          then ds_edge_loop self connection_matrix current_vertex rest
                 colour_ds incidence_matrix_ds queue_ds
          else
            incidence_matrix_ds ←
              np_set incidence_matrix_ds current_vertex edge_idx upstream_vertex_idx;
            ds_edge_loop self connection_matrix current_vertex rest
              colour_ds incidence_matrix_ds
              (queue_ds ++ [(upstream_vertex_idx, edge_idx)])
  end.

(** [while queue_ds:] *)
Fixpoint ds_search (bound : nat) (self : Catchment) (connection_matrix : matrix)
    (num_edges : nat) (queue_ds : list (Z * Z)) (colour_ds incidence_matrix_ds : matrix)
    : result (option matrix) :=
  match queue_ds with
  | [] => Ok (Some incidence_matrix_ds)
  | (current_vertex, incoming_edge) :: queue_ds =>
      match bound with
      | O => Ok None
      | S bound =>
          '(colour_ds, incidence_matrix_ds, queue_ds) ←
            ds_edge_loop self connection_matrix current_vertex
              (seqZ 0 (Z.of_nat num_edges)) colour_ds incidence_matrix_ds queue_ds;
          ds_search bound self connection_matrix num_edges
            queue_ds colour_ds incidence_matrix_ds
      end
  end.

(** [Catchment._build_incidence_matrices]: the two arrays it fills in
    place are returned, in the order (downstream, upstream). *)
Definition _build_incidence_matrices (bound : nat) (self : Catchment)
    (connection_matrix incidence_matrix_ds incidence_matrix_us : matrix)
    (num_vertices num_edges : nat) : result (option (matrix * matrix)) :=
  let queue_us := [(_out_node_index self, -1)] in
  let colour_us := np_zeros num_vertices num_edges in
  us ← us_search bound self connection_matrix num_edges
         queue_us colour_us incidence_matrix_us;
  match us with
  | None => Ok None
  | Some incidence_matrix_us =>
      let queue_ds := [(_out_node_index self, -1)] in
      let colour_ds := np_zeros num_vertices num_edges in
      ds ← ds_search bound self connection_matrix num_edges
             queue_ds colour_ds incidence_matrix_ds;
      match ds with
      | None => Ok None
      | Some incidence_matrix_ds => Ok (Some (incidence_matrix_ds, incidence_matrix_us))
      end
  end.

End Connectivity.

(** ** Downstream sub-area resolution ([qgis2rorb/model/wbnm.py]) *)

Section WBNM.

(** The part of the [Traveller] that [_getDsIndex] calls.  The class is not
    among the sources, so its methods are parameters; each may raise. *)
Variable down : Z -> result Z.
Variable getNode : Z -> result Vertex.
Variable traveller_endSentinel : Z.

(** [WBNM._getDsIndex].  The method calls itself; [depth] bounds the number
    of nested calls, and [None] means that the call at nesting [depth]
    would have to call again (CPython gives up with [RecursionError] at
    its recursion limit). *)
Fixpoint _getDsIndex (depth : nat) (i : Z) : result (option Z) :=
  match depth with
  | O => Ok None
  | S depth =>
      ds ← down i;
      node ← getNode ds;
      match node with
      | VBasin _ => Ok (Some ds)
      | VConfluence c =>
          if isOut c then Ok (Some traveller_endSentinel)
          else _getDsIndex depth ds
      end
  end.

(** The vertex reached from [i] by [k] downstream steps. *)
Fixpoint walk (k : nat) (i : Z) : result Z :=
  match k with
  | O => Ok i
  | S k => v ← walk k i; down v
  end.

(** The vertex [k] steps downstream of [i] is a Confluence that is not the
    outlet (a pure junction). *)
Definition junction_at (k : nat) (i : Z) : Prop :=
  exists v c, walk k i = Ok v /\ getNode v = Ok (VConfluence c) /\ isOut c = false.

(** The vertex [k] steps downstream of [i] is [v], a Basin. *)
Definition basin_at (k : nat) (i : Z) (v : Z) : Prop :=
  exists b, walk k i = Ok v /\ getNode v = Ok (VBasin b).

(** The vertex [k] steps downstream of [i] is the outlet. *)
Definition outlet_at (k : nat) (i : Z) : Prop :=
  exists v c, walk k i = Ok v /\ getNode v = Ok (VConfluence c) /\ isOut c = true.

End WBNM.

(** Modelled from the spec: the [Traveller] queries [getNode] and [down] over
    a connected [Catchment] (the class [Traveller] is not among the sources).
    [getNode] is a direct lookup; [down] is the entry of row [index] of the
    downstream table that is set (unset entries hold the sentinel; the first
    one in edge order if there are several), or the end sentinel when the
    row has none; an index outside [0, vertexCount) is a usage error. *)
Module Traveller.

Definition getNode (c : Catchment) (index : Z) : result Vertex :=
  if (0 <=? index) && (index <? Z.of_nat (length (_vertices c)))
  then list_get (_vertices c) index
  else Raise IndexError.

Definition down (c : Catchment) (index : Z) : result Z :=
  if (0 <=? index) && (index <? Z.of_nat (length (_vertices c)))
  then
    row ← list_get (_incidenceMatrixDS c) index;
    match List.filter (fun w => negb (w =? _endSentinel c)) row with
    | w :: _ => Ok w
    | [] => Ok (_endSentinel c)
    end
  else Raise IndexError.

End Traveller.

(** ** Reference values used in the statements *)

(** A reference [hypot] for concrete runs: the rounded square root of the
    rounded sum of squares. *)
Definition hypot_sqrt (a b : float) : float := PrimFloat.sqrt (a * a + b * b)%float.

(** [x] is not a NaN (in Python, [x == x]). *)
Definition is_number (x : float) : bool := PrimFloat.eqb x x.

(** The list of distances from [coords] to the vertices, in list order. *)
Definition distances (hypot : float -> float -> float)
    (vertices : list Vertex) (coords : float * float) : list float :=
  map (fun v => distance hypot (vertex_coordinates v) coords) vertices.

(** Number of entries of row [v] of table [m] that differ from [sentinel]. *)
Definition row_entries (m : matrix) (sentinel : Z) (v : nat) : nat :=
  match m !! v with
  | Some row => length (List.filter (fun w => negb (w =? sentinel)) row)
  | None => O
  end.

(** Number of vertices that are a Confluence flagged as outlet. *)
Definition outlet_count (vertices : list Vertex) : nat :=
  length (List.filter is_outlet vertices).

(** Entry [(v, e)] of a table, by position. *)
Definition entry (m : matrix) (v e : nat) : option Z :=
  row ← m !! v; row !! e.

(** A table has [rows] rows of [cols] entries each. *)
Definition dims (m : matrix) (rows cols : nat) : Prop :=
  length m = rows /\ Forall (fun row => length row = cols) m.

(** The pair of vertex indices that the loops of [connect] compute for an
    edge, when both of its ends are matched: [(start_idx, end_idx)]. *)
Definition bound_ends (hypot : float -> float -> float) (self : Catchment)
    (edge : Reach) : option (Z * Z) :=
  match getStart edge, getEnd edge with
  | Ok start_node, Ok end_node =>
      let start_idx := _find_closest_vertex hypot self start_node _find_closest_vertex_tol in
      let end_idx := _find_closest_vertex hypot self end_node _find_closest_vertex_tol in
      if (start_idx =? -1) || (end_idx =? -1) then None else Some (start_idx, end_idx)
  | _, _ => None
  end.

(** The upstream end of [edge] is matched to vertex [v] (and its downstream
    end is matched too). *)
Definition starts_at (hypot : float -> float -> float) (self : Catchment)
    (v : nat) (edge : Reach) : bool :=
  match bound_ends hypot self edge with
  | Some (s, _) => s =? Z.of_nat v
  | None => false
  end.

(** ** Concrete catchments

    Coordinates and distances are chosen exactly representable, so that
    [hypot_sqrt] returns the exact distance. *)

Definition node_at (a b : float) : Node := mkNode "" a b.
Definition confluence_at (a b : float) (out : bool) : Confluence :=
  mkConfluence (node_at a b) out.
Definition basin_at_point (a b : float) : Basin := mkBasin (node_at a b) 1 0.
Definition reach_along (points : list Node) : Reach := mkReach "" points NATURAL 0.

(** No outlet: one plain Confluence, one Basin draining to it. *)
Definition no_outlet : Catchment :=
  Catchment_init (Some [confluence_at 0 0 false]) (Some [basin_at_point 10 0])
    (Some [reach_along [node_at 10 0; node_at 0 0]]).

(** No outlet either, and a reach without points. *)
Definition empty_reach : Catchment :=
  Catchment_init (Some [confluence_at 0 0 false]) None (Some [reach_along []]).

(** Two Confluences flagged as outlet, a Basin draining through both. *)
Definition two_outlets : Catchment :=
  Catchment_init (Some [confluence_at 0 0 true; confluence_at 10 0 true])
    (Some [basin_at_point 20 0])
    (Some [reach_along [node_at 20 0; node_at 10 0];
           reach_along [node_at 10 0; node_at 0 0]]).

(** Two edges leave the Basin (vertex 2): one to the Confluence (vertex 1), one
    to the outlet (vertex 0). *)
Definition forked : Catchment :=
  Catchment_init (Some [confluence_at 0 0 true; confluence_at 10 0 false])
    (Some [basin_at_point 20 0])
    (Some [reach_along [node_at 20 0; node_at 10 0];
           reach_along [node_at 20 0; node_at 0 0]]).

(** The only edge joins two Basins (vertices 1 and 2) and does not touch the
    outlet (vertex 0). *)
Definition detached : Catchment :=
  Catchment_init (Some [confluence_at 0 0 true])
    (Some [basin_at_point 10 0; basin_at_point 20 0])
    (Some [reach_along [node_at 10 0; node_at 20 0]]).

(** The ends of the only edge are 0.0625 away from the two vertices. *)
Definition offset_edge : Catchment :=
  Catchment_init (Some [confluence_at 0 0 true]) (Some [basin_at_point 10 0])
    (Some [reach_along [node_at 10.0625 0; node_at 0.0625 0]]).

(** A vertex at distance 0.0625 listed before a vertex at distance 0. *)
Definition near_then_exact : Catchment :=
  Catchment_init (Some [confluence_at 0.0625 0 false; confluence_at 0 0 true]) None None.

(** Three vertices at distance 5 from the origin. *)
Definition equidistant : Catchment :=
  Catchment_init (Some [confluence_at 0 5 true; confluence_at 3 4 false])
    (Some [basin_at_point 5 0]) None.

(** Basin (4) -> Confluence (2) -> Confluence (1) -> Basin (3) -> outlet (0). *)
Definition chain : Catchment :=
  Catchment_init
    (Some [confluence_at 0 0 true; confluence_at 20 0 false; confluence_at 30 0 false])
    (Some [basin_at_point 10 0; basin_at_point 40 0])
    (Some [reach_along [node_at 40 0; node_at 30 0];
           reach_along [node_at 30 0; node_at 20 0];
           reach_along [node_at 20 0; node_at 10 0];
           reach_along [node_at 10 0; node_at 0 0]]).

Definition chain_connected : Catchment := snd (connect hypot_sqrt chain).

(** Two Confluences (1 and 2) that drain into each other, beside the outlet
    (0). *)
Definition cycle : Catchment :=
  Catchment_init
    (Some [confluence_at 0 0 true; confluence_at 10 0 false; confluence_at 20 0 false])
    None
    (Some [reach_along [node_at 10 0; node_at 20 0];
           reach_along [node_at 20 0; node_at 10 0]]).

Definition cycle_connected : Catchment := snd (connect hypot_sqrt cycle).

(** ** The two breadth-first searches, seen as one

    The upstream and the downstream search of [_build_incidence_matrices] are
    the same loop up to the tag they look for in the connection matrix (1 or
    2) and the end of the edge they look up ([getEnd] or [getStart]). *)

Section Search.

Variable hypot : float -> float -> float.
Variable tag : Z.
Variable far_end : Reach -> result Node.

Fixpoint search_edge_loop (self : Catchment) (connection_matrix : matrix)
    (current_vertex : Z) (edge_idxs : list Z)
    (colour incidence_matrix : matrix) (queue : list (Z * Z))
    : result (matrix * matrix * list (Z * Z)) :=
  match edge_idxs with
  | [] => Ok (colour, incidence_matrix, queue)
  | edge_idx :: rest =>
      connection_type ← np_get connection_matrix current_vertex edge_idx;
      if negb (connection_type =? tag)
      then search_edge_loop self connection_matrix current_vertex rest
             colour incidence_matrix queue
      else
        c ← np_get colour current_vertex edge_idx;
        if negb (c =? 0)
        then search_edge_loop self connection_matrix current_vertex rest
               colour incidence_matrix queue
        else
          colour ← np_set colour current_vertex edge_idx 1;
          edge ← list_get (_edges self) edge_idx;
          node ← far_end edge;
          let vertex_idx :=
            _find_vertex_by_coordinates hypot self (coordinates node)
              _find_vertex_by_coordinates_tol in
          if vertex_idx =? -1
          then search_edge_loop self connection_matrix current_vertex rest
                 colour incidence_matrix queue
          else
            incidence_matrix ←
              np_set incidence_matrix current_vertex edge_idx vertex_idx;
            search_edge_loop self connection_matrix current_vertex rest
              colour incidence_matrix (queue ++ [(vertex_idx, edge_idx)])
  end.

Fixpoint search (bound : nat) (self : Catchment) (connection_matrix : matrix)
    (num_edges : nat) (queue : list (Z * Z)) (colour incidence_matrix : matrix)
    : result (option matrix) :=
  match queue with
  | [] => Ok (Some incidence_matrix)
  | (current_vertex, incoming_edge) :: queue =>
      match bound with
      | O => Ok None
      | S bound =>
          '(colour, incidence_matrix, queue) ←
            search_edge_loop self connection_matrix current_vertex
              (seqZ 0 (Z.of_nat num_edges)) colour incidence_matrix queue;
          search bound self connection_matrix num_edges queue colour incidence_matrix
      end
  end.

(** What a search may have done to entry [(v, e)] of its table, which held
    [before]: left it alone, or, where the connection matrix holds the tag,
    replaced it by the vertex found at the far end of edge [e]. *)
Definition search_entry (self : Catchment) (connection_matrix : matrix)
    (before after : option Z) (v e : nat) : Prop :=
  after = before \/
  (entry connection_matrix v e = Some tag /\
   exists (edge : Reach) (node : Node),
     _edges self !! e = Some edge /\ far_end edge = Ok node /\
     after = Some (_find_vertex_by_coordinates hypot self (coordinates node)
                     _find_vertex_by_coordinates_tol) /\
     0 <= _find_vertex_by_coordinates hypot self (coordinates node)
            _find_vertex_by_coordinates_tol
       < Z.of_nat (length (_vertices self))).

End Search.

(** Number of entries of a colour table that are still 0. *)
Definition zero_cells (m : matrix) : nat :=
  sum_list (map (fun row => length (List.filter (fun w => w =? 0) row)) m).

(** ** Value blocks of the WBNM runfile ([qgis2rorb/model/wbnm.py]) *)

(** The values that [_createValueBlock] is called with: names and keywords,
    counts and switches, parameters and rounded measures. *)
Inductive block_value :=
| BStr (s : string)
| BInt (z : Z)
| BFloat (f : float).

(** The ways [_createValueBlock] ends: the block, the [ValueError] of its
    [except] clause, or a [TypeError]. *)
Inductive block_result :=
| Block (s : string)
| BlockValueError (msg : string)
| BlockTypeError.

Fixpoint spaces (n : nat) : string :=
  match n with
  | O => EmptyString
  | S n => String " "%char (spaces n)
  end.

(** [s.rjust(width, ' ')] and [s.ljust(width, ' ')] *)
Definition rjust (s : string) (width : nat) : string :=
  (spaces (width - String.length s) ++ s)%string.

Definition ljust (s : string) (width : nat) : string :=
  (s ++ spaces (width - String.length s))%string.

Section ValueBlock.

(** [str] of a float: the shortest decimal that reads back as the float,
    computed by the Python runtime. *)
Variable float_str : float -> string.

(** [str(value)] *)
Definition py_str (value : block_value) : string :=
  match value with
  | BStr s => s
  | BInt z => NilZero.string_of_int (Z.to_int z)
  | BFloat f => float_str f
  end.

(** [WBNM._createValueBlock].  When the text is longer than 12 characters,
    the message of the [ValueError] being built calls [len(value)]: on a
    string this gives the [ValueError], which the [except] clause replaces
    by its own; on a number it raises [TypeError], which the clause does
    not catch. *)
Definition _createValueBlock (value : block_value) : block_result :=
  let string := py_str value in
  if (12 <? String.length string)%nat then
    match value with
    | BStr _ => BlockValueError "cannot parse argument into a string"
    | BInt _ | BFloat _ => BlockTypeError
    end
  else
    match value with
    | BFloat _ | BInt _ => Block (rjust string 12)
    | BStr _ => Block (ljust string 12)
    end.

End ValueBlock.

(** ** The confluence layer: validation and building
    ([core/geometry/shapefile_validation.py], [core/gis/builder.py]) *)

(** Attribute values of a shapefile record. *)
Inductive pyval :=
| PNone
| PBool (b : bool)
| PInt (z : Z)
| PFloat (f : float)
| PStr (s : string).

(** [value == 1] and [value == 0], the tests behind [list.count(1)] and
    [list.count(0)]. *)
Definition py_eq_one (value : pyval) : bool :=
  match value with
  | PBool b => b
  | PInt z => z =? 1
  | PFloat f => PrimFloat.eqb f 1
  | PNone | PStr _ => false
  end.

Definition py_eq_zero (value : pyval) : bool :=
  match value with
  | PBool b => negb b
  | PInt z => z =? 0
  | PFloat f => PrimFloat.eqb f 0
  | PNone | PStr _ => false
  end.

(** [bool(value)] *)
Definition py_bool (value : pyval) : bool :=
  match value with
  | PNone => false
  | PBool b => b
  | PInt z => negb (z =? 0)
  | PFloat f => negb (PrimFloat.eqb f 0)
  | PStr s => negb (String.eqb s "")
  end.

(** One feature of a [VectorLayer]: what [get_geometry(i)] and
    [get_attributes(i)] return for it.  A layer is the list of its features,
    in index order. *)
Record Feature := mkFeature {
  feature_geometry : list (float * float);
  feature_record : string -> option pyval
}.

(** [record.get(key)] and [record[key]] *)
Definition dict_get (record : string -> option pyval) (key : string) : pyval :=
  match record key with
  | Some value => value
  | None => PNone
  end.

Definition dict_item (record : string -> option pyval) (key : string) : result pyval :=
  match record key with
  | Some value => Ok value
  | None => Raise (KeyError key)
  end.

(** [validate_confluences_out_field]; the name is only used in log
    messages. *)
Definition validate_confluences_out_field (vector_layer : list Feature)
    (shapefile_name : string) : bool :=
  let validation_passed := true in
  let out_values := map (fun f => dict_get (feature_record f) "out") vector_layer in
  let count_ones := Z.of_nat (length (List.filter py_eq_one out_values)) in
  let count_zeros := Z.of_nat (length (List.filter py_eq_zero out_values)) in
  let total_records := Z.of_nat (length out_values) in
  let validation_passed :=
    if negb (count_ones =? 1) then false else validation_passed in
  let validation_passed :=
    if negb (count_zeros =? total_records - 1) then false else validation_passed in
  validation_passed.

Section Builder.

(** The part of [_validate_vector_layer] that reads the expected fields and
    the OGR field and geometry types of the layer (the look-up of the
    expected fields, [validate_shapefile_fields] and
    [validate_shapefile_geometries]): its verdict, or the exception it
    lets through. *)
Variable fields_and_geometries_valid : list Feature -> string -> result bool.

(** [str.capitalize] of the Python runtime. *)
Variable capitalize : string -> string.

(** The [id] attribute, stored as the name of the node; names are strings
    in this development, so the value is carried over by [name_of]. *)
Variable name_of : pyval -> string.

(** [Builder._validate_vector_layer] *)
Definition _validate_vector_layer (vector_layer : list Feature) (layer_type : string)
    (specific_validations : list (list Feature -> string -> bool)) : result bool :=
  let shapefile_name := capitalize layer_type in
  valid ← fields_and_geometries_valid vector_layer layer_type;
  if negb valid then Ok false
  else Ok (forallb (fun validation_func => validation_func vector_layer shapefile_name)
             specific_validations).

(** The loop of [Builder.confluence]. *)
Fixpoint confluence_loop (features : list Feature) (confluences : list Confluence)
    : result (list Confluence) :=
  match features with
  | [] => Ok confluences
  | feature :: rest =>
      let attributes := feature_record feature in
      let geometry_coords := feature_geometry feature in
      match geometry_coords with
      | [] => confluence_loop rest confluences
      | (x, y) :: _ =>
          confluence_id ← dict_item attributes "id";
          out_field ← dict_item attributes "out";
          confluence_loop rest
            (confluences ++
               [mkConfluence (mkNode (name_of confluence_id) x y) (py_bool out_field)])
      end
  end.

(** [Builder.confluence] *)
Definition Builder_confluence (confluence_layer : list Feature)
    : result (list Confluence) :=
  valid ← _validate_vector_layer confluence_layer "confluences"
            [validate_confluences_out_field];
  if negb valid
  then Raise (ValueError "Confluence vector layer validation failed.")
  else confluence_loop confluence_layer [].

End Builder.

(** The [out] attribute of a feature, as [record.get("out")] reads it. *)
Definition out_value (feature : Feature) : pyval :=
  dict_get (feature_record feature) "out".

(** [bool(geometry_coords)]: the feature holds at least one coordinate. *)
Definition has_geometry (feature : Feature) : bool :=
  match feature_geometry feature with
  | [] => false
  | _ :: _ => true
  end.

(** A record with the two fields of a confluence. *)
Definition confluence_record (id : string) (out : pyval) : string -> option pyval :=
  fun key =>
    if String.eqb key "id" then Some (PStr id)
    else if String.eqb key "out" then Some out
    else None.

(** A layer of three confluences, the second flagged as outlet with the
    float [1.0]. *)
Definition three_confluences : list Feature :=
  [ mkFeature [(0%float, 0%float)] (confluence_record "c0" (PInt 0));
    mkFeature [(1%float, 0%float)] (confluence_record "c1" (PFloat 1%float));
    mkFeature [(2%float, 0%float)] (confluence_record "c2" (PBool false)) ].

(** The same layer with the geometry of the flagged feature empty. *)
Definition outlet_without_geometry : list Feature :=
  [ mkFeature [(0%float, 0%float)] (confluence_record "c0" (PInt 0));
    mkFeature [] (confluence_record "c1" (PInt 1));
    mkFeature [(2%float, 0%float)] (confluence_record "c2" (PInt 0)) ].

(** Field and geometry validation that accepts every layer, and names read
    from string identifiers. *)
Definition accept_layer (vector_layer : list Feature) (layer_type : string)
    : result bool := Ok true.

Definition name_of_string (value : pyval) : string :=
  match value with
  | PStr s => s
  | _ => EmptyString
  end.


(** The tables that [connect] returns for [chain]. *)
Definition chain_ds : matrix :=
  [[-1; -1; -1; -1]; [-1; -1; 3; -1]; [-1; 1; -1; -1]; [-1; -1; -1; 0]; [2; -1; -1; -1]].

Definition chain_us : matrix :=
  [[-1; -1; -1; 3]; [-1; 2; -1; -1]; [4; -1; -1; -1]; [-1; -1; 1; -1]; [-1; -1; -1; -1]].

(** ** Order facts on binary64 values *)

Module FloatOrder.

Ltac fold_pos_compare :=
  repeat match goal with
  | |- context [Pos.compare_cont Eq ?a ?b] =>
      change (Pos.compare_cont Eq a b) with (Pos.compare a b)
  | H : context [Pos.compare_cont Eq ?a ?b] |- _ =>
      change (Pos.compare_cont Eq a b) with (Pos.compare a b) in H
  end.

Lemma SFcompare_opp (a b : spec_float) :
  SFcompare b a = option_map CompOpp (SFcompare a b).
Proof.
  destruct a as [[]|[]| |[] ma ea], b as [[]|[]| |[] mb eb]; simpl; try reflexivity;
    fold_pos_compare.
  - rewrite (Z.compare_antisym ea eb).
    destruct (ea ?= eb)%Z; simpl; try reflexivity.
    rewrite (Pos.compare_antisym ma mb). now destruct (ma ?= mb)%positive.
  - rewrite (Z.compare_antisym ea eb).
    destruct (ea ?= eb)%Z; simpl; try reflexivity.
    now rewrite (Pos.compare_antisym ma mb).
Qed.

Lemma SFcompare_total (a b : spec_float) :
  a <> S754_nan -> b <> S754_nan -> exists c, SFcompare a b = Some c.
Proof.
  destruct a as [[]|[]| |[] ma ea], b as [[]|[]| |[] mb eb]; simpl;
    intros Ha Hb; try congruence; eauto.
Qed.

Lemma SFcompare_nan_l (a b : spec_float) c :
  SFcompare a b = Some c -> a <> S754_nan /\ b <> S754_nan.
Proof.
  destruct a as [[]|[]| |[] ma ea], b as [[]|[]| |[] mb eb]; simpl;
    intros H; split; congruence.
Qed.

Ltac cmp_cases :=
  repeat match goal with
  | |- context [(?a ?= ?b)%Z] =>
      let H := fresh in destruct (Z.compare_spec a b) as [H|H|H]; try subst
  | H : context [(?a ?= ?b)%Z] |- _ =>
      let H' := fresh in destruct (Z.compare_spec a b) as [H'|H'|H']; try subst
  | |- context [(?a ?= ?b)%positive] =>
      let H := fresh in destruct (Pos.compare_spec a b) as [H|H|H]; try subst
  | H : context [(?a ?= ?b)%positive] |- _ =>
      let H' := fresh in destruct (Pos.compare_spec a b) as [H'|H'|H']; try subst
  end.

Lemma SFcompare_lt_trans (a b c : spec_float) :
  SFcompare a b = Some Lt -> SFcompare b c = Some Lt -> SFcompare a c = Some Lt.
Proof.
  destruct a as [[]|[]| |[] ma ea], b as [[]|[]| |[] mb eb],
           c as [[]|[]| |[] mc ec]; simpl; intros H1 H2;
    try congruence; f_equal; fold_pos_compare; cmp_cases; simpl in *;
    try congruence; try lia.
Qed.

Lemma SFcompare_eq_lt (a b c : spec_float) :
  SFcompare a b = Some Eq -> SFcompare b c = Some Lt -> SFcompare a c = Some Lt.
Proof.
  destruct a as [[]|[]| |[] ma ea], b as [[]|[]| |[] mb eb],
           c as [[]|[]| |[] mc ec]; simpl; intros H1 H2;
    try congruence; f_equal; fold_pos_compare; cmp_cases; simpl in *;
    try congruence; try lia.
Qed.

Lemma SFcompare_lt_eq (a b c : spec_float) :
  SFcompare a b = Some Lt -> SFcompare b c = Some Eq -> SFcompare a c = Some Lt.
Proof.
  destruct a as [[]|[]| |[] ma ea], b as [[]|[]| |[] mb eb],
           c as [[]|[]| |[] mc ec]; simpl; intros H1 H2;
    try congruence; f_equal; fold_pos_compare; cmp_cases; simpl in *;
    try congruence; try lia.
Qed.

Lemma SFcompare_eq_trans (a b c : spec_float) :
  SFcompare a b = Some Eq -> SFcompare b c = Some Eq -> SFcompare a c = Some Eq.
Proof.
  destruct a as [[]|[]| |[] ma ea], b as [[]|[]| |[] mb eb],
           c as [[]|[]| |[] mc ec]; simpl; intros H1 H2;
    try congruence; f_equal; fold_pos_compare; cmp_cases; simpl in *;
    try congruence; try lia.
Qed.

Lemma is_number_spec x : is_number x = true <-> Prim2SF x <> S754_nan.
Proof.
  unfold is_number. rewrite FloatAxioms.eqb_spec. unfold SFeqb.
  destruct (Prim2SF x) as [[]|[]| |[] m e]; simpl; try (split; congruence).
  - fold_pos_compare. rewrite Z.compare_refl, Pos.compare_refl. simpl. split; congruence.
  - fold_pos_compare. rewrite Z.compare_refl, Pos.compare_refl. simpl. split; congruence.
Qed.

Lemma ltb_is_number x y :
  PrimFloat.ltb x y = true -> is_number x = true /\ is_number y = true.
Proof.
  rewrite FloatAxioms.ltb_spec, !is_number_spec. unfold SFltb.
  destruct (SFcompare (Prim2SF x) (Prim2SF y)) as [c|] eqn:E; [|discriminate].
  intros _. eapply SFcompare_nan_l; eauto.
Qed.

Lemma leb_is_number x y :
  PrimFloat.leb x y = true -> is_number x = true /\ is_number y = true.
Proof.
  rewrite FloatAxioms.leb_spec, !is_number_spec. unfold SFleb.
  destruct (SFcompare (Prim2SF x) (Prim2SF y)) as [c|] eqn:E; [|discriminate].
  intros _. eapply SFcompare_nan_l; eauto.
Qed.

Lemma ltb_irrefl x : PrimFloat.ltb x x = false.
Proof.
  rewrite FloatAxioms.ltb_spec. unfold SFltb.
  destruct (SFcompare (Prim2SF x) (Prim2SF x)) as [[]|] eqn:E; try reflexivity.
  pose proof (SFcompare_opp (Prim2SF x) (Prim2SF x)) as H.
  rewrite E in H. discriminate.
Qed.

Lemma ltb_trans x y z :
  PrimFloat.ltb x y = true -> PrimFloat.ltb y z = true -> PrimFloat.ltb x z = true.
Proof.
  rewrite !FloatAxioms.ltb_spec. unfold SFltb.
  destruct (SFcompare (Prim2SF x) (Prim2SF y)) as [[]|] eqn:E1; try discriminate.
  destruct (SFcompare (Prim2SF y) (Prim2SF z)) as [[]|] eqn:E2; try discriminate.
  now rewrite (SFcompare_lt_trans _ _ _ E1 E2).
Qed.

Lemma ltb_leb x y : PrimFloat.ltb x y = true -> PrimFloat.leb x y = true.
Proof.
  rewrite FloatAxioms.ltb_spec, FloatAxioms.leb_spec. unfold SFltb, SFleb.
  now destruct (SFcompare (Prim2SF x) (Prim2SF y)) as [[]|].
Qed.

Lemma leb_refl x : is_number x = true -> PrimFloat.leb x x = true.
Proof.
  unfold is_number. rewrite FloatAxioms.eqb_spec, FloatAxioms.leb_spec. unfold SFeqb, SFleb.
  now destruct (SFcompare (Prim2SF x) (Prim2SF x)) as [[]|].
Qed.

(** On numbers the order is total: [not (x < y)] is [y <= x]. *)
Lemma ltb_false_leb x y :
  is_number x = true -> is_number y = true ->
  PrimFloat.ltb x y = false -> PrimFloat.leb y x = true.
Proof.
  rewrite !is_number_spec, FloatAxioms.ltb_spec, FloatAxioms.leb_spec. unfold SFltb, SFleb.
  intros Hx Hy. rewrite (SFcompare_opp (Prim2SF x) (Prim2SF y)).
  destruct (SFcompare_total _ _ Hx Hy) as [c ->]. now destruct c.
Qed.

Lemma leb_ltb_false x y : PrimFloat.leb y x = true -> PrimFloat.ltb x y = false.
Proof.
  rewrite FloatAxioms.ltb_spec, FloatAxioms.leb_spec. unfold SFltb, SFleb.
  rewrite (SFcompare_opp (Prim2SF x) (Prim2SF y)).
  now destruct (SFcompare (Prim2SF x) (Prim2SF y)) as [[]|].
Qed.

Lemma ltb_leb_trans x y z :
  PrimFloat.ltb x y = true -> PrimFloat.leb y z = true -> PrimFloat.ltb x z = true.
Proof.
  rewrite !FloatAxioms.ltb_spec, FloatAxioms.leb_spec. unfold SFltb, SFleb.
  destruct (SFcompare (Prim2SF x) (Prim2SF y)) as [[]|] eqn:E1; try discriminate.
  destruct (SFcompare (Prim2SF y) (Prim2SF z)) as [[]|] eqn:E2; try discriminate.
  - now rewrite (SFcompare_lt_eq _ _ _ E1 E2).
  - now rewrite (SFcompare_lt_trans _ _ _ E1 E2).
Qed.

Lemma leb_ltb_trans x y z :
  PrimFloat.leb x y = true -> PrimFloat.ltb y z = true -> PrimFloat.ltb x z = true.
Proof.
  rewrite !FloatAxioms.ltb_spec, FloatAxioms.leb_spec. unfold SFltb, SFleb.
  destruct (SFcompare (Prim2SF x) (Prim2SF y)) as [[]|] eqn:E1; try discriminate.
  - destruct (SFcompare (Prim2SF y) (Prim2SF z)) as [[]|] eqn:E2; try discriminate.
    now rewrite (SFcompare_eq_lt _ _ _ E1 E2).
  - destruct (SFcompare (Prim2SF y) (Prim2SF z)) as [[]|] eqn:E2; try discriminate.
    now rewrite (SFcompare_lt_trans _ _ _ E1 E2).
Qed.

Lemma leb_trans x y z :
  PrimFloat.leb x y = true -> PrimFloat.leb y z = true -> PrimFloat.leb x z = true.
Proof.
  intros H1 H2.
  destruct (leb_is_number _ _ H1) as [Hx _], (leb_is_number _ _ H2) as [_ Hz].
  apply ltb_false_leb; trivial.
  destruct (PrimFloat.ltb z x) eqn:E; trivial.
  pose proof (ltb_leb_trans _ _ _ E H1) as H3.
  now rewrite (leb_ltb_false _ _ H2) in H3.
Qed.

End FloatOrder.


(** ** The two vertex lookups *)

Section LookupFacts.

Variable hypot : float -> float -> float.

Import FloatOrder.

Abbreviation dists := (distances hypot).

(** The loop of [_find_closest_vertex] keeps the first strict minimum seen
    so far: it either leaves its variables alone or ends on the first
    vertex whose distance is below the initial bound and minimal. *)
Lemma closest_loop_spec (p : float * float) (vs : list Vertex) :
  forall (k : Z) (m : float) (ci : Z),
    is_number m = true ->
    Forall (fun d => is_number d = true) (dists vs p) ->
    let '(m', ci') := closest_loop hypot p vs k m ci in
    PrimFloat.leb m' m = true /\
    Forall (fun d => PrimFloat.leb m' d = true) (dists vs p) /\
    ((m' = m /\ ci' = ci) \/
     (exists (j : nat) (d : float),
         ci' = k + Z.of_nat j /\ dists vs p !! j = Some d /\ m' = d /\
         PrimFloat.ltb d m = true /\
         forall (j' : nat) (d' : float),
           (j' < j)%nat -> dists vs p !! j' = Some d' -> PrimFloat.ltb d d' = true)).
Proof.
  induction vs as [|v rest IH]; intros k m ci Hm Hds; simpl.
  - split; [now apply leb_refl|]. split; [constructor|]. now left.
  - apply Forall_cons in Hds as [Hd0 Hrest].
    fold (distance hypot (vertex_coordinates v) p) in *.
    set (d0 := distance hypot (vertex_coordinates v) p) in *.
    destruct (PrimFloat.ltb d0 m) eqn:Hlt.
    + specialize (IH (k + 1) d0 k Hd0 Hrest).
      destruct (closest_loop hypot p rest (k + 1) d0 k) as [m' ci'].
      destruct IH as (Hle & Hall & Hcase).
      split; [apply ltb_leb; eapply leb_ltb_trans; eauto|].
      split; [constructor; auto|].
      right. destruct Hcase as [[-> ->]|(j & d & -> & Hj & -> & Hdlt & Hfirst)].
      * exists O, d0. repeat split; auto; try lia.
      * exists (S j), d. repeat split; auto; try lia.
        -- eapply ltb_trans; eauto.
        -- intros [|j'] d' Hj' Hd'; simpl in Hd'.
           ++ now inversion Hd'; subst.
           ++ eapply Hfirst; [|exact Hd']. lia.
    + pose proof (ltb_false_leb _ _ Hd0 Hm Hlt) as Hmd0.
      specialize (IH (k + 1) m ci Hm Hrest).
      destruct (closest_loop hypot p rest (k + 1) m ci) as [m' ci'].
      destruct IH as (Hle & Hall & Hcase).
      split; [assumption|].
      split; [constructor; auto; eapply leb_trans; eauto|].
      destruct Hcase as [[-> ->]|(j & d & -> & Hj & -> & Hdlt & Hfirst)];
        [now left|right].
      exists (S j), d. repeat split; auto; try lia.
      intros [|j'] d' Hj' Hd'; simpl in Hd'.
      * inversion Hd'; subst. eapply ltb_leb_trans; eauto.
      * eapply Hfirst; [|exact Hd']. lia.
Qed.

(** Whatever the distances are, the loop either leaves its variables
    alone or ends on the position of a vertex, with that vertex's
    distance, which is then a number. *)
Lemma closest_loop_range (p : float * float) (vs : list Vertex) :
  forall (k : Z) (m : float) (ci : Z),
    let '(m', ci') := closest_loop hypot p vs k m ci in
    (m' = m /\ ci' = ci) \/
    (exists j : nat,
        ci' = k + Z.of_nat j /\ dists vs p !! j = Some m' /\ is_number m' = true).
Proof.
  induction vs as [|v rest IH]; intros k m ci; simpl.
  - now left.
  - fold (distance hypot (vertex_coordinates v) p) in *.
    set (d0 := distance hypot (vertex_coordinates v) p) in *.
    destruct (PrimFloat.ltb d0 m) eqn:Hlt.
    + specialize (IH (k + 1) d0 k).
      destruct (closest_loop hypot p rest (k + 1) d0 k) as [m' ci'].
      right. destruct IH as [[-> ->]|(j & -> & Hj & Hnum)].
      * exists O. repeat split; try lia; auto.
        now apply ltb_is_number in Hlt.
      * exists (S j). repeat split; try lia; auto.
    + specialize (IH (k + 1) m ci).
      destruct (closest_loop hypot p rest (k + 1) m ci) as [m' ci'].
      destruct IH as [[-> ->]|(j & -> & Hj & Hnum)]; [now left|right].
      exists (S j). repeat split; try lia; auto.
Qed.

(** [_find_closest_vertex] returns [-1] or the position of a vertex whose
    distance is a number not above the tolerance. *)
Lemma find_closest_vertex_bound (self : Catchment) (node : Node) (tol : float) :
  let r := _find_closest_vertex hypot self node tol in
  r = -1 \/
  exists (j : nat) (d : float),
    r = Z.of_nat j /\ dists (_vertices self) (coordinates node) !! j = Some d /\
    is_number d = true /\ PrimFloat.ltb tol d = false.
Proof.
  unfold _find_closest_vertex.
  pose proof (closest_loop_range (coordinates node) (_vertices self) 0 infinity (-1)) as H.
  destruct (closest_loop hypot (coordinates node) (_vertices self) 0 infinity (-1))
    as [m' ci'].
  destruct (PrimFloat.ltb tol m') eqn:Htol; [now left|].
  destruct H as [[-> ->]|(j & -> & Hj & Hnum)]; [now left|right].
  exists j, m'. repeat split; auto.
Qed.

Lemma find_closest_vertex_in_range (self : Catchment) (node : Node) (tol : float) :
  let r := _find_closest_vertex hypot self node tol in
  r = -1 \/ 0 <= r < Z.of_nat (length (_vertices self)).
Proof.
  destruct (find_closest_vertex_bound self node tol) as [H|(j & d & H & Hj & _)];
    [now left|right].
  simpl. rewrite H. apply lookup_lt_Some in Hj.
  unfold distances in Hj. rewrite length_map in Hj. lia.
Qed.

(** With numbers for distances and a finite tolerance, the lookup either
    finds every vertex beyond the tolerance and returns [-1], or returns
    the first vertex of minimum distance, which is within the tolerance. *)
Lemma find_closest_vertex_cases (self : Catchment) (node : Node) (tol : float) :
  let ds := dists (_vertices self) (coordinates node) in
  let r := _find_closest_vertex hypot self node tol in
  PrimFloat.ltb tol infinity = true ->
  Forall (fun d => is_number d = true) ds ->
  (r = -1 /\ Forall (fun d => PrimFloat.ltb tol d = true) ds) \/
  (exists (i : nat) (d : float),
      r = Z.of_nat i /\ ds !! i = Some d /\ PrimFloat.leb d tol = true /\
      Forall (fun d' => PrimFloat.leb d d' = true) ds /\
      forall (j : nat) (d' : float),
        (j < i)%nat -> ds !! j = Some d' -> PrimFloat.ltb d d' = true).
Proof.
  intros ds r Htol Hds. subst r. unfold _find_closest_vertex.
  destruct (ltb_is_number _ _ Htol) as [Htn Hinf].
  pose proof (closest_loop_spec (coordinates node) (_vertices self) 0 infinity (-1)
                Hinf Hds) as H.
  destruct (closest_loop hypot (coordinates node) (_vertices self) 0 infinity (-1))
    as [m' ci'].
  destruct H as (Hle & Hall & Hcase). fold ds in Hall, Hcase.
  destruct (PrimFloat.ltb tol m') eqn:Hm.
  - left. split; [reflexivity|].
    eapply Forall_impl; [exact Hall|]. intros d Hd. simpl in Hd.
    eapply ltb_leb_trans; eauto.
  - destruct Hcase as [[-> ->]|(j & d & -> & Hj & -> & Hdlt & Hfirst)].
    + congruence.
    + right. exists j, d. repeat split; auto; try lia.
      apply ltb_false_leb; auto.
      now apply ltb_is_number in Hdlt.
Qed.

(** The loop of [_find_vertex_by_coordinates] stops at the first vertex
    within the tolerance. *)
Lemma by_coordinates_loop_spec (coords : float * float) (tol : float)
    (vs : list Vertex) :
  forall k : Z,
    let ds := dists vs coords in
    let r := by_coordinates_loop hypot coords tol vs k in
    (r = -1 /\ Forall (fun d => PrimFloat.leb d tol = false) ds) \/
    (exists (i : nat) (d : float),
        r = k + Z.of_nat i /\ ds !! i = Some d /\ PrimFloat.leb d tol = true /\
        forall (j : nat) (d' : float),
          (j < i)%nat -> ds !! j = Some d' -> PrimFloat.leb d' tol = false).
Proof.
  induction vs as [|v rest IH]; intros k; simpl.
  - left. split; [reflexivity|constructor].
  - fold (distance hypot (vertex_coordinates v) coords) in *.
    set (d0 := distance hypot (vertex_coordinates v) coords) in *.
    destruct (PrimFloat.leb d0 tol) eqn:Hle.
    + right. exists O, d0. repeat split; auto; try lia.
    + destruct (IH (k + 1)) as [[Hr Hall]|(i & d & Hr & Hi & Hd & Hfirst)].
      * left. split; [exact Hr|]. constructor; auto.
      * right. exists (S i), d. repeat split; auto; try lia.
        intros [|j] d' Hj Hd'; simpl in Hd'.
        -- now inversion Hd'; subst.
        -- eapply Hfirst; [|exact Hd']. lia.
Qed.

End LookupFacts.

(** ** numpy tables *)

Section MatrixFacts.

Lemma np_index_in_range (len : nat) (i : Z) :
  0 <= i < Z.of_nat len -> np_index len i = Ok (Z.to_nat i).
Proof.
  intros H. unfold np_index.
  destruct (0 <=? i) eqn:E1; [|lia]. destruct (i <? Z.of_nat len) eqn:E2; [|lia].
  reflexivity.
Qed.

Lemma list_get_in_range {A} (l : list A) (i : Z) :
  0 <= i < Z.of_nat (length l) -> exists a, list_get l i = Ok a /\ l !! Z.to_nat i = Some a.
Proof.
  intros H. unfold list_get. rewrite np_index_in_range by assumption. simpl.
  destruct (l !! Z.to_nat i) as [a|] eqn:E; [eauto|].
  apply lookup_ge_None in E. lia.
Qed.

Lemma dims_np_full (rows cols : nat) (v : Z) : dims (np_full rows cols v) rows cols.
Proof.
  unfold dims, np_full. split; [apply length_replicate|].
  apply Forall_replicate. apply length_replicate.
Qed.

Lemma entry_np_full (rows cols : nat) (x : Z) (v e : nat) :
  (v < rows)%nat -> (e < cols)%nat -> entry (np_full rows cols x) v e = Some x.
Proof.
  intros Hv He. unfold entry, np_full.
  rewrite lookup_replicate_2 by assumption. simpl.
  now apply lookup_replicate_2.
Qed.

Lemma dims_row (m : matrix) (rows cols : nat) (v : nat) (row : list Z) :
  dims m rows cols -> m !! v = Some row -> length row = cols.
Proof.
  intros [_ H] Hv. rewrite Forall_lookup in H. exact (H v row Hv).
Qed.

(** An assignment [m[i, j] = x] inside the table succeeds, keeps the shape
    and changes that entry only. *)
Lemma np_set_in_range (m : matrix) (rows cols : nat) (i j x : Z) :
  dims m rows cols -> 0 <= i < Z.of_nat rows -> 0 <= j < Z.of_nat cols ->
  exists m',
    np_set m i j x = Ok m' /\ dims m' rows cols /\
    forall v e : nat,
      entry m' v e =
        if decide (v = Z.to_nat i /\ e = Z.to_nat j) then Some x else entry m v e.
Proof.
  intros Hd Hi Hj. pose proof Hd as [Hlen Hrows]. unfold np_set.
  rewrite np_index_in_range by lia. simpl.
  destruct (list_get_in_range m i ltac:(lia)) as (row & -> & Hrow). simpl.
  pose proof (dims_row _ _ _ _ _ Hd Hrow) as Hrl.
  rewrite np_index_in_range by lia. simpl.
  eexists. split; [reflexivity|]. split.
  - split; [now rewrite length_insert|].
    apply Forall_insert; [assumption|]. now rewrite length_insert.
  - intros v e. unfold entry.
    destruct (decide (v = Z.to_nat i)) as [->|Hv].
    + rewrite list_lookup_insert_eq by (apply lookup_lt_Some in Hrow; lia).
      rewrite Hrow. simpl.
      destruct (decide (e = Z.to_nat j)) as [->|He].
      * rewrite decide_True by auto.
        apply list_lookup_insert_eq. lia.
      * rewrite decide_False by tauto.
        now apply list_lookup_insert_ne.
    + rewrite decide_False by tauto.
      now rewrite list_lookup_insert_ne by auto.
Qed.

(** A row all of whose entries are given by a function of the column's
    edge is the image of the edge list. *)
Lemma row_from_entries {A} (m : matrix) (rows : nat) (es : list A) (v : nat)
    (f : A -> Z) :
  dims m rows (length es) -> (v < rows)%nat ->
  (forall (e : nat) (a : A), es !! e = Some a -> entry m v e = Some (f a)) ->
  m !! v = Some (map f es).
Proof.
  intros Hd Hv H. pose proof Hd as [Hlen _].
  destruct (m !! v) as [row|] eqn:Hrow.
  - f_equal. pose proof (dims_row _ _ _ _ _ Hd Hrow) as Hrl.
    apply list_eq. intros e. rewrite list_lookup_fmap.
    destruct (es !! e) as [a|] eqn:He; simpl.
    + specialize (H e a He). unfold entry in H. rewrite Hrow in H. exact H.
    + apply lookup_ge_None. apply lookup_ge_None in He. lia.
  - apply lookup_ge_None in Hrow. lia.
Qed.

Lemma filter_map_length {A} (f : A -> Z) (p : Z -> bool) (q : A -> bool) (l : list A) :
  (forall a, In a l -> p (f a) = q a) ->
  length (List.filter p (map f l)) = length (List.filter q l).
Proof.
  induction l as [|a l IH]; intros H; simpl; [reflexivity|].
  rewrite (H a) by now left.
  destruct (q a); simpl; rewrite IH; auto; intros; apply H; now right.
Qed.

End MatrixFacts.

(** ** The loops of [connect] *)

Section ConnectFacts.

Variable hypot : float -> float -> float.

Lemma getStart_Ok (edge : Reach) (p : Node) : getStart edge = Ok p -> _vector edge <> [].
Proof.
  unfold getStart, getPoint. simpl. destruct (_vector edge); [discriminate|discriminate].
Qed.

Lemma getPoints_nonempty (edge : Reach) :
  _vector edge <> [] -> exists a b, getStart edge = Ok a /\ getEnd edge = Ok b.
Proof.
  intros H. unfold getStart, getEnd, getPoint. simpl.
  destruct (_vector edge) as [|p rest] eqn:E; [congruence|].
  destruct (last (p :: rest)) as [q|] eqn:El.
  - eauto.
  - apply last_None in El. discriminate.
Qed.

Lemma bound_ends_in_range (self : Catchment) (edge : Reach) (s t : Z) :
  bound_ends hypot self edge = Some (s, t) ->
  0 <= s < Z.of_nat (length (_vertices self)) /\
  0 <= t < Z.of_nat (length (_vertices self)).
Proof.
  unfold bound_ends.
  destruct (getStart edge) as [a|]; [|discriminate].
  destruct (getEnd edge) as [b|]; [|discriminate].
  pose proof (find_closest_vertex_in_range hypot self a _find_closest_vertex_tol) as Ha.
  pose proof (find_closest_vertex_in_range hypot self b _find_closest_vertex_tol) as Hb.
  simpl in Ha, Hb.
  destruct (_ =? -1) eqn:E1; [discriminate|].
  destruct (_find_closest_vertex hypot self b _ =? -1) eqn:E2; [discriminate|].
  simpl. intros H. inversion H; subst s t.
  apply Z.eqb_neq in E1, E2. lia.
Qed.

(** One step of both loops amounts to a case distinction on [bound_ends]. *)
Lemma connection_loop_cons (self : Catchment) (edge : Reach) (rest : list Reach)
    (k : Z) (cm : matrix) :
  _vector edge <> [] ->
  connection_loop hypot self (edge :: rest) k cm =
    match bound_ends hypot self edge with
    | None => connection_loop hypot self rest (k + 1) cm
    | Some (s, t) =>
        cm ← np_set cm s k 1;
        cm ← np_set cm t k 2;
        connection_loop hypot self rest (k + 1) cm
    end.
Proof.
  intros H. destruct (getPoints_nonempty edge H) as (a & b & Ha & Hb).
  simpl. unfold bound_ends. rewrite Ha, Hb. simpl.
  now destruct (_ || _).
Qed.

Lemma incidence_loop_cons (self : Catchment) (edge : Reach) (rest : list Reach)
    (k : Z) (ds us : matrix) :
  _vector edge <> [] ->
  incidence_loop hypot self (edge :: rest) k ds us =
    match bound_ends hypot self edge with
    | None => incidence_loop hypot self rest (k + 1) ds us
    | Some (s, t) =>
        ds ← np_set ds s k t;
        us ← np_set us t k s;
        incidence_loop hypot self rest (k + 1) ds us
    end.
Proof.
  intros H. destruct (getPoints_nonempty edge H) as (a & b & Ha & Hb).
  simpl. unfold bound_ends. rewrite Ha, Hb. simpl.
  destruct (_ =? -1); simpl; [reflexivity|].
  now destruct (_ =? -1).
Qed.

Lemma connection_loop_Ok_nonempty (self : Catchment) (es : list Reach) :
  forall (k : Z) (cm cm' : matrix),
    connection_loop hypot self es k cm = Ok cm' -> Forall (fun e => _vector e <> []) es.
Proof.
  induction es as [|edge rest IH]; intros k cm cm' H; [constructor|].
  simpl in H.
  destruct (getStart edge) as [a|] eqn:Ha; [|discriminate]. simpl in H.
  destruct (getEnd edge) as [b|] eqn:Hb; [|discriminate]. simpl in H.
  constructor; [eapply getStart_Ok; eauto|].
  destruct (_ || _).
  - eapply IH; eauto.
  - destruct (np_set cm _ k 1) as [cm1|]; [|discriminate]. simpl in H.
    destruct (np_set cm1 _ k 2) as [cm2|]; [|discriminate]. simpl in H.
    eapply IH; eauto.
Qed.

(** With every edge holding a point, the first loop completes. *)
Lemma connection_loop_completes (self : Catchment) (cols : nat) (es : list Reach) :
  forall (k : Z) (cm : matrix),
    dims cm (length (_vertices self)) cols ->
    0 <= k -> k + Z.of_nat (length es) <= Z.of_nat cols ->
    Forall (fun e => _vector e <> []) es ->
    exists cm', connection_loop hypot self es k cm = Ok cm' /\
                dims cm' (length (_vertices self)) cols.
Proof.
  induction es as [|edge rest IH]; intros k cm Hd Hk Hlen Hne.
  - simpl. eauto.
  - apply Forall_cons in Hne as [Hedge Hrest]. simpl in Hlen.
    rewrite connection_loop_cons by assumption.
    destruct (bound_ends hypot self edge) as [[s t]|] eqn:Hb.
    + destruct (bound_ends_in_range _ _ _ _ Hb) as [Hs Ht].
      destruct (np_set_in_range cm _ _ s k 1 Hd Hs ltac:(lia)) as (cm1 & -> & Hd1 & _).
      simpl.
      destruct (np_set_in_range cm1 _ _ t k 2 Hd1 Ht ltac:(lia)) as (cm2 & -> & Hd2 & _).
      simpl. apply IH; auto; lia.
    + apply IH; auto; lia.
Qed.

(** The second loop completes as well, and writes, for each edge with both
    ends matched, one entry in each table, in the column of the edge. *)
Lemma incidence_loop_spec (self : Catchment) (cols : nat) (es : list Reach) :
  forall (k : Z) (ds us : matrix),
    dims ds (length (_vertices self)) cols ->
    dims us (length (_vertices self)) cols ->
    0 <= k -> k + Z.of_nat (length es) <= Z.of_nat cols ->
    Forall (fun e => _vector e <> []) es ->
    exists ds' us',
      incidence_loop hypot self es k ds us = Ok (ds', us') /\
      dims ds' (length (_vertices self)) cols /\
      dims us' (length (_vertices self)) cols /\
      (forall (v e : nat),
          (Z.of_nat e < k \/ k + Z.of_nat (length es) <= Z.of_nat e) ->
          entry ds' v e = entry ds v e /\ entry us' v e = entry us v e) /\
      (forall (v j : nat) (edge : Reach),
          es !! j = Some edge ->
          let e := Z.to_nat (k + Z.of_nat j) in
          entry ds' v e =
            match bound_ends hypot self edge with
            | Some (s, t) => if decide (v = Z.to_nat s) then Some t else entry ds v e
            | None => entry ds v e
            end /\
          entry us' v e =
            match bound_ends hypot self edge with
            | Some (s, t) => if decide (v = Z.to_nat t) then Some s else entry us v e
            | None => entry us v e
            end).
Proof.
  induction es as [|edge rest IH]; intros k ds us Hds Hus Hk Hlen Hne.
  - simpl. exists ds, us. split_and!; auto.
    intros v j edge H. inversion H.
  - apply Forall_cons in Hne as [Hedge Hrest]. simpl in Hlen.
    rewrite incidence_loop_cons by assumption.
    destruct (bound_ends hypot self edge) as [[s t]|] eqn:Hb.
    + destruct (bound_ends_in_range _ _ _ _ Hb) as [Hs Ht].
      destruct (np_set_in_range ds _ _ s k t Hds Hs ltac:(lia)) as (ds1 & -> & Hd1 & He1).
      simpl.
      destruct (np_set_in_range us _ _ t k s Hus Ht ltac:(lia)) as (us1 & -> & Hu1 & Hf1).
      simpl.
      destruct (IH (k + 1) ds1 us1 Hd1 Hu1 ltac:(lia) ltac:(lia) Hrest)
        as (ds' & us' & -> & Hd' & Hu' & Hframe & Hcols).
      exists ds', us'. split_and!; auto; [intros v e H; split|intros v j edge0 H; split].
      * destruct (Hframe v e ltac:(simpl in *; lia)) as [-> _].
        rewrite He1. apply decide_False. simpl in *. lia.
      * destruct (Hframe v e ltac:(simpl in *; lia)) as [_ ->].
        rewrite Hf1. apply decide_False. simpl in *. lia.
      * destruct j as [|j]; simpl in H.
        -- inversion H; subst edge0. rewrite Hb.
           replace (k + Z.of_nat 0) with k by lia.
           destruct (Hframe v (Z.to_nat k) ltac:(lia)) as [-> _].
           rewrite He1.
           destruct (decide (v = Z.to_nat s)) as [->|Hv].
           ++ now rewrite decide_True by auto.
           ++ now rewrite decide_False by tauto.
        -- replace (k + Z.of_nat (S j)) with (k + 1 + Z.of_nat j) by lia.
           destruct (Hcols v j edge0 H) as [-> _].
           rewrite He1. rewrite decide_False by lia. reflexivity.
      * destruct j as [|j]; simpl in H.
        -- inversion H; subst edge0. rewrite Hb.
           replace (k + Z.of_nat 0) with k by lia.
           destruct (Hframe v (Z.to_nat k) ltac:(lia)) as [_ ->].
           rewrite Hf1.
           destruct (decide (v = Z.to_nat t)) as [->|Hv].
           ++ now rewrite decide_True by auto.
           ++ now rewrite decide_False by tauto.
        -- replace (k + Z.of_nat (S j)) with (k + 1 + Z.of_nat j) by lia.
           destruct (Hcols v j edge0 H) as [_ ->].
           rewrite Hf1. rewrite decide_False by lia. reflexivity.
    + destruct (IH (k + 1) ds us Hds Hus ltac:(lia) ltac:(lia) Hrest)
        as (ds' & us' & -> & Hd' & Hu' & Hframe & Hcols).
      exists ds', us'. split_and!; auto; [intros v e H; split|intros v j edge0 H; split].
      * apply Hframe. simpl in *. lia.
      * apply Hframe. simpl in *. lia.
      * destruct j as [|j]; simpl in H.
        -- inversion H; subst edge0. rewrite Hb.
           replace (k + Z.of_nat 0) with k by lia.
           apply Hframe. lia.
        -- replace (k + Z.of_nat (S j)) with (k + 1 + Z.of_nat j) by lia.
           now destruct (Hcols v j edge0 H) as [-> _].
      * destruct j as [|j]; simpl in H.
        -- inversion H; subst edge0. rewrite Hb.
           replace (k + Z.of_nat 0) with k by lia.
           apply Hframe. lia.
        -- replace (k + Z.of_nat (S j)) with (k + 1 + Z.of_nat j) by lia.
           now destruct (Hcols v j edge0 H) as [_ ->].
Qed.

(** The outlet search returns the first outlet-flagged Confluence. *)
Lemma out_node_loop_spec (vs : list Vertex) :
  forall k : Z,
    match out_node_loop vs k with
    | Some idx =>
        exists (i : nat) (v : Vertex),
          idx = k + Z.of_nat i /\ vs !! i = Some v /\ is_outlet v = true /\
          forall (j : nat) (v' : Vertex),
            (j < i)%nat -> vs !! j = Some v' -> is_outlet v' = false
    | None => outlet_count vs = O
    end.
Proof.
  induction vs as [|v rest IH]; intros k; simpl; [reflexivity|].
  unfold outlet_count. simpl.
  destruct (is_outlet v) eqn:Hv.
  - exists O, v. split_and!; auto; try lia.
  - specialize (IH (k + 1)). destruct (out_node_loop rest (k + 1)) as [idx|].
    + destruct IH as (i & w & -> & Hi & Hw & Hfirst).
      exists (S i), w. split_and!; auto; try lia.
      intros [|j] v' Hj Hv'; simpl in Hv'.
      * now inversion Hv'; subst.
      * eapply Hfirst; [|exact Hv']. lia.
    + exact IH.
Qed.

Lemma out_node_loop_Some_count (vs : list Vertex) (k idx : Z) :
  out_node_loop vs k = Some idx -> (1 <= outlet_count vs)%nat.
Proof.
  revert k. induction vs as [|v rest IH]; intros k; simpl; [discriminate|].
  unfold outlet_count. simpl. destruct (is_outlet v); simpl; [lia|].
  intros H. exact (IH _ H).
Qed.

(** The lookups read the vertex list of the object and nothing else. *)
Lemma find_closest_vertex_ext (s1 s2 : Catchment) (node : Node) (tol : float) :
  _vertices s1 = _vertices s2 ->
  _find_closest_vertex hypot s1 node tol = _find_closest_vertex hypot s2 node tol.
Proof. intros H. unfold _find_closest_vertex. now rewrite H. Qed.

Lemma connection_loop_ext (s1 s2 : Catchment) (es : list Reach) :
  _vertices s1 = _vertices s2 ->
  forall (k : Z) (cm : matrix),
    connection_loop hypot s1 es k cm = connection_loop hypot s2 es k cm.
Proof.
  intros H. induction es as [|edge rest IH]; intros k cm; simpl; [reflexivity|].
  destruct (getStart edge) as [a|]; simpl; [|reflexivity].
  destruct (getEnd edge) as [b|]; simpl; [|reflexivity].
  rewrite !(find_closest_vertex_ext s1 s2) by assumption.
  destruct (_ || _); [apply IH|].
  destruct (np_set cm _ k 1) as [cm1|]; simpl; [|reflexivity].
  destruct (np_set cm1 _ k 2) as [cm2|]; simpl; [|reflexivity].
  apply IH.
Qed.

Lemma incidence_loop_ext (s1 s2 : Catchment) (es : list Reach) :
  _vertices s1 = _vertices s2 ->
  forall (k : Z) (ds us : matrix),
    incidence_loop hypot s1 es k ds us = incidence_loop hypot s2 es k ds us.
Proof.
  intros H. induction es as [|edge rest IH]; intros k ds us; simpl; [reflexivity|].
  destruct (getStart edge) as [a|]; simpl; [|reflexivity].
  destruct (getEnd edge) as [b|]; simpl; [|reflexivity].
  rewrite !(find_closest_vertex_ext s1 s2) by assumption.
  destruct (negb _ && negb _); [|apply IH].
  destruct (np_set ds _ k _) as [ds1|]; simpl; [|reflexivity].
  destruct (np_set us _ k _) as [us1|]; simpl; [|reflexivity].
  apply IH.
Qed.

(** [connect] never touches the vertex list, the edge list or the
    sentinel, whether it returns or raises. *)
Lemma connect_frame (self : Catchment) :
  _vertices (snd (connect hypot self)) = _vertices self /\
  _edges (snd (connect hypot self)) = _edges self /\
  _endSentinel (snd (connect hypot self)) = _endSentinel self.
Proof.
  unfold connect, _find_out_node.
  destruct (connection_loop hypot self _ 0 _) as [cm|]; [|now simpl].
  destruct (out_node_loop (_vertices self) 0) as [idx|]; [|now simpl].
  match goal with |- context [incidence_loop hypot ?s ?es 0 ?a ?b] =>
    destruct (incidence_loop hypot s es 0 a b) as [[ds us]|] end; now simpl.
Qed.

(** [connect], with the object it works on written out. *)
Lemma connect_unfold (self : Catchment) :
  connect hypot self =
    match connection_loop hypot self (_edges self) 0
            (np_zeros (length (_vertices self)) (length (_edges self))) with
    | Raise e => (Raise e, self)
    | Ok _ =>
        match out_node_loop (_vertices self) 0 with
        | None => (Raise (ValueError "No 'out' node found in confluences."), self)
        | Some idx =>
            match incidence_loop hypot self (_edges self) 0
                    (np_full (length (_vertices self)) (length (_edges self))
                       (_endSentinel self))
                    (np_full (length (_vertices self)) (length (_edges self))
                       (_endSentinel self)) with
            | Raise e =>
                (Raise e,
                 mkCatchment (_edges self) (_vertices self) (_incidenceMatrixDS self)
                   (_incidenceMatrixUS self) idx (_endSentinel self))
            | Ok (ds, us) =>
                (Ok (ds, us),
                 mkCatchment (_edges self) (_vertices self) ds us idx (_endSentinel self))
            end
        end
    end.
Proof.
  unfold connect, _find_out_node.
  destruct (connection_loop hypot self _ 0 _) as [cm|]; [|reflexivity].
  destruct (out_node_loop (_vertices self) 0) as [idx|]; [|reflexivity].
  cbv beta iota. simpl _edges. simpl _vertices. simpl _endSentinel.
  match goal with |- context [incidence_loop hypot ?s _ 0 _ _] =>
    rewrite (incidence_loop_ext s self (_edges self)) by reflexivity end.
  now destruct (incidence_loop hypot self _ 0 _ _) as [[ds us]|].
Qed.

(** Without an outlet, [connect] raises and leaves the object as it was. *)
Lemma connect_no_outlet (self : Catchment) :
  Forall (fun e => _vector e <> []) (_edges self) ->
  out_node_loop (_vertices self) 0 = None ->
  connect hypot self = (Raise (ValueError "No 'out' node found in confluences."), self).
Proof.
  intros Hne Hout. unfold connect, _find_out_node.
  destruct (connection_loop_completes self (length (_edges self)) (_edges self) 0
              (np_zeros _ _) (dims_np_full _ _ _) ltac:(lia) ltac:(lia) Hne)
    as (cm & -> & _).
  now rewrite Hout.
Qed.

(** With an outlet and every edge holding a point, [connect] returns the
    two tables, stores them with the outlet index, and each table holds,
    in the column of an edge with both ends matched, exactly one entry. *)
Lemma connect_with_outlet (self : Catchment) (idx : Z) :
  Forall (fun e => _vector e <> []) (_edges self) ->
  out_node_loop (_vertices self) 0 = Some idx ->
  exists ds us,
    connect hypot self =
      (Ok (ds, us),
       {| _edges := _edges self;
          _vertices := _vertices self;
          _incidenceMatrixDS := ds;
          _incidenceMatrixUS := us;
          _out_node_index := idx;
          _endSentinel := _endSentinel self |}) /\
    dims ds (length (_vertices self)) (length (_edges self)) /\
    dims us (length (_vertices self)) (length (_edges self)) /\
    forall (v e : nat) (edge : Reach),
      (v < length (_vertices self))%nat -> _edges self !! e = Some edge ->
      entry ds v e =
        Some match bound_ends hypot self edge with
             | Some (s, t) => if decide (Z.of_nat v = s) then t else _endSentinel self
             | None => _endSentinel self
             end /\
      entry us v e =
        Some match bound_ends hypot self edge with
             | Some (s, t) => if decide (Z.of_nat v = t) then s else _endSentinel self
             | None => _endSentinel self
             end.
Proof.
  intros Hne Hout. unfold connect, _find_out_node.
  destruct (connection_loop_completes self (length (_edges self)) (_edges self) 0
              (np_zeros _ _) (dims_np_full _ _ _) ltac:(lia) ltac:(lia) Hne)
    as (cm & -> & _).
  rewrite Hout. cbv beta iota. simpl _edges. simpl _vertices. simpl _endSentinel.
  set (self1 := mkCatchment _ _ _ _ idx _).
  set (nv := length (_vertices self)). set (ne := length (_edges self)).
  assert (Hv1 : _vertices self1 = _vertices self) by reflexivity.
  rewrite (incidence_loop_ext self1 self _ Hv1).
  destruct (incidence_loop_spec self ne (_edges self) 0
              (np_full nv ne (_endSentinel self)) (np_full nv ne (_endSentinel self))
              (dims_np_full _ _ _) (dims_np_full _ _ _) ltac:(lia) ltac:(lia) Hne)
    as (ds & us & -> & Hds & Hus & _ & Hcols).
  exists ds, us. split_and!; auto.
  intros v e edge Hv He.
  destruct (Hcols v e edge He) as [Hd Hu].
  replace (Z.to_nat (0 + Z.of_nat e)) with e in Hd, Hu by lia.
  assert (Hlt : (e < ne)%nat) by (apply lookup_lt_Some in He; exact He).
  rewrite (entry_np_full nv ne _ v e Hv Hlt) in Hd, Hu.
  rewrite Hd, Hu.
  destruct (bound_ends hypot self edge) as [[s t]|] eqn:Hb; [|now split].
  destruct (bound_ends_in_range _ _ _ _ Hb) as [Hs Ht].
  split.
  - destruct (decide (v = Z.to_nat s)), (decide (Z.of_nat v = s)); try reflexivity; lia.
  - destruct (decide (v = Z.to_nat t)), (decide (Z.of_nat v = t)); try reflexivity; lia.
Qed.

(** A call that returned went through every edge and found an outlet. *)
Lemma connect_Ok_inv (self self' : Catchment) (ds us : matrix) :
  connect hypot self = (Ok (ds, us), self') ->
  Forall (fun e => _vector e <> []) (_edges self) /\
  exists idx, out_node_loop (_vertices self) 0 = Some idx.
Proof.
  unfold connect, _find_out_node.
  destruct (connection_loop hypot self _ 0 _) as [cm|] eqn:Hcm; [|discriminate].
  apply connection_loop_Ok_nonempty in Hcm.
  destruct (out_node_loop (_vertices self) 0) as [idx|]; [|discriminate].
  intros _. split; eauto.
Qed.

(** The tables of a call that returned: their shape and their entries. *)
Lemma connect_Ok_tables (self self' : Catchment) (ds us : matrix) :
  connect hypot self = (Ok (ds, us), self') ->
  dims ds (length (_vertices self)) (length (_edges self)) /\
  dims us (length (_vertices self)) (length (_edges self)) /\
  forall (v e : nat) (edge : Reach),
    (v < length (_vertices self))%nat -> _edges self !! e = Some edge ->
    entry ds v e =
      Some match bound_ends hypot self edge with
           | Some (s, t) => if decide (Z.of_nat v = s) then t else _endSentinel self
           | None => _endSentinel self
           end /\
    entry us v e =
      Some match bound_ends hypot self edge with
           | Some (s, t) => if decide (Z.of_nat v = t) then s else _endSentinel self
           | None => _endSentinel self
           end.
Proof.
  intros Hc.
  destruct (connect_Ok_inv _ _ _ _ Hc) as [Hne [idx Hidx]].
  destruct (connect_with_outlet self idx Hne Hidx) as (ds' & us' & Hc' & Hds & Hus & H).
  rewrite Hc in Hc'. inversion Hc'; subst ds' us'. auto.
Qed.

(** A position that holds an entry lies inside the table. *)
Lemma entry_in_dims (m : matrix) (rows cols v e : nat) (w : Z) :
  dims m rows cols -> entry m v e = Some w -> (v < rows)%nat /\ (e < cols)%nat.
Proof.
  intros Hd Hw. unfold entry in Hw.
  destruct (m !! v) as [row|] eqn:Hrow; [|discriminate]. simpl in Hw.
  pose proof (dims_row _ _ _ _ _ Hd Hrow). destruct Hd as [Hl _].
  apply lookup_lt_Some in Hrow, Hw. lia.
Qed.

End ConnectFacts.

(** ** Properties of the vertex lookups *)

Section LookupProperties.

Variable hypot : float -> float -> float.

Import FloatOrder.

(** C7.  Closest-vertex lookup, for distances that are numbers and a finite
    tolerance: when some vertex lies at a distance less than or equal to
    the tolerance (a vertex exactly at the tolerance counts), the lookup
    returns the index of a vertex of minimum distance, and among the
    vertices at that minimum the first in list order; when every vertex
    is farther than the tolerance, it returns the no-vertex result
    [-1]. *)
Theorem find_closest_vertex_nearest (self : Catchment) (node : Node) (tol : float) :
  let ds := distances hypot (_vertices self) (coordinates node) in
  let r := _find_closest_vertex hypot self node tol in
  PrimFloat.ltb tol infinity = true ->
  Forall (fun d => is_number d = true) ds ->
  (Exists (fun d => PrimFloat.leb d tol = true) ds ->
   exists (i : nat) (d : float),
     r = Z.of_nat i /\ ds !! i = Some d /\ PrimFloat.leb d tol = true /\
     Forall (fun d' => PrimFloat.leb d d' = true) ds /\
     forall (j : nat) (d' : float),
       (j < i)%nat -> ds !! j = Some d' -> PrimFloat.ltb d d' = true) /\
  (Forall (fun d => PrimFloat.ltb tol d = true) ds -> r = -1).
Proof.
  intros ds r Htol Hds.
  destruct (find_closest_vertex_cases hypot self node tol Htol Hds)
    as [[Hr Hall]|(i & d & Hr & Hi & Hd & Hmin & Hfirst)]; fold ds in Hall || fold ds in Hi.
  - split; [|auto].
    intros Hex. apply Exists_exists in Hex as (d & Hin & Hd).
    rewrite Forall_forall in Hall. specialize (Hall d Hin).
    rewrite (leb_ltb_false _ _ Hd) in Hall. discriminate.
  - split.
    + intros _. exists i, d. auto.
    + intros Hall. rewrite Forall_lookup in Hall. specialize (Hall i d Hi).
      simpl in Hall. rewrite (leb_ltb_false _ _ Hd) in Hall. discriminate.
Qed.

(** C8 (as amended).  The re-lookup by coordinates returns the first vertex
    in list order whose distance is within the tolerance, whether or not
    a later vertex is nearer, and [-1] when no vertex is within the
    tolerance.  For distances that are numbers and a finite tolerance it
    returns [-1] exactly when the closest-vertex lookup does, and the two
    return the same index whenever the first vertex within the tolerance
    is at minimum distance. *)
Theorem find_vertex_by_coordinates_first (self : Catchment) (node : Node)
    (tol : float) :
  let ds := distances hypot (_vertices self) (coordinates node) in
  let r := _find_vertex_by_coordinates hypot self (coordinates node) tol in
  let c := _find_closest_vertex hypot self node tol in
  PrimFloat.ltb tol infinity = true ->
  Forall (fun d => is_number d = true) ds ->
  ((r = -1 /\ Forall (fun d => PrimFloat.leb d tol = false) ds) \/
   (exists (i : nat) (d : float),
       r = Z.of_nat i /\ ds !! i = Some d /\ PrimFloat.leb d tol = true /\
       forall (j : nat) (d' : float),
         (j < i)%nat -> ds !! j = Some d' -> PrimFloat.leb d' tol = false)) /\
  (r = -1 <-> c = -1) /\
  (forall (i : nat) (d : float),
      r = Z.of_nat i -> ds !! i = Some d ->
      Forall (fun d' => PrimFloat.leb d d' = true) ds -> c = r).
Proof.
  intros ds r c Htol Hds.
  destruct (ltb_is_number _ _ Htol) as [Htn _].
  pose proof (by_coordinates_loop_spec hypot (coordinates node) tol (_vertices self) 0)
    as Hr.
  simpl in Hr. fold ds in Hr.
  change (by_coordinates_loop hypot (coordinates node) tol (_vertices self) 0)
    with r in Hr.
  assert (Hr' :
    (r = -1 /\ Forall (fun d => PrimFloat.leb d tol = false) ds) \/
    (exists (i : nat) (d : float),
        r = Z.of_nat i /\ ds !! i = Some d /\ PrimFloat.leb d tol = true /\
        forall (j : nat) (d' : float),
          (j < i)%nat -> ds !! j = Some d' -> PrimFloat.leb d' tol = false)).
  { destruct Hr as [Hr|(i & d & Hr & H)]; [now left|right].
    exists i, d. split; [lia|exact H]. }
  clear Hr.
  pose proof (find_closest_vertex_cases hypot self node tol Htol Hds) as Hc.
  simpl in Hc. fold ds c in Hc.
  split; [exact Hr'|]. split; [split|].
  - (* no vertex within the tolerance: the nearest is beyond it too *)
    intros Hr1.
    destruct Hr' as [[_ Hall]|(i & d & Hri & _)]; [|lia].
    destruct Hc as [[Hc _]|(i & d & _ & Hi & Hd & _)]; [exact Hc|].
    rewrite Forall_lookup in Hall. specialize (Hall i d Hi). simpl in Hall.
    congruence.
  - intros Hc1.
    destruct Hc as [[_ Hall]|(i & d & Hci & _)]; [|lia].
    destruct Hr' as [[Hr1 _]|(i & d & _ & Hi & Hd & _)]; [exact Hr1|].
    rewrite Forall_lookup in Hall. specialize (Hall i d Hi). simpl in Hall.
    rewrite (leb_ltb_false _ _ Hd) in Hall. discriminate.
  - intros i d Hri Hi Hmin.
    destruct Hr' as [[Hr1 _]|(i0 & d0 & Hri0 & Hi0 & Hd0 & Hfirst0)]; [lia|].
    assert (i0 = i) by lia. subst i0.
    assert (d0 = d) by congruence. subst d0.
    destruct Hc as [[_ Hall]|(i1 & d1 & Hc1 & Hi1 & Hd1 & Hmin1 & Hfirst1)].
    + rewrite Forall_lookup in Hall. specialize (Hall i d Hi). simpl in Hall.
      rewrite (leb_ltb_false _ _ Hd0) in Hall. discriminate.
    + rewrite Hc1, Hri. f_equal.
      destruct (Nat.lt_trichotomy i1 i) as [Hlt|[Heq|Hgt]]; [|exact Heq|].
      * specialize (Hfirst0 i1 d1 Hlt Hi1). congruence.
      * specialize (Hfirst1 i d Hgt Hi).
        rewrite Forall_lookup in Hmin. specialize (Hmin i1 d1 Hi1). simpl in Hmin.
        rewrite (leb_ltb_false _ _ Hmin) in Hfirst1. discriminate.
Qed.

End LookupProperties.

(** ** Properties of [connect] *)

Section ConnectProperties.

Variable hypot : float -> float -> float.

Import FloatOrder.

(** C1 (as amended).  When no vertex is a Confluence flagged as outlet,
    [connect] raises and leaves the object, and so its stored tables,
    untouched; with every edge holding at least one point the exception is
    the fatal no-outlet error.  When one or more vertices are flagged as
    outlet there is no multiple-outlet error: with every edge holding a
    point, [connect] returns the two tables and takes the first flagged
    Confluence in list order as the outlet. *)
Theorem connect_outlet_detection (self : Catchment) :
  (outlet_count (_vertices self) = O ->
   exists e : exn, connect hypot self = (Raise e, self)) /\
  (Forall (fun e => _vector e <> []) (_edges self) ->
   (outlet_count (_vertices self) = O ->
    connect hypot self =
      (Raise (ValueError "No 'out' node found in confluences."), self)) /\
   ((1 <= outlet_count (_vertices self))%nat ->
    exists (ds us : matrix) (self' : Catchment) (i : nat) (v : Vertex),
      connect hypot self = (Ok (ds, us), self') /\
      _out_node_index self' = Z.of_nat i /\
      _vertices self !! i = Some v /\ is_outlet v = true /\
      forall (j : nat) (v' : Vertex),
        (j < i)%nat -> _vertices self !! j = Some v' -> is_outlet v' = false)).
Proof.
  pose proof (out_node_loop_spec (_vertices self) 0) as Hout.
  split.
  - intros H0. rewrite connect_unfold.
    destruct (connection_loop hypot self _ 0 _) as [cm|e]; [|eauto].
    destruct (out_node_loop (_vertices self) 0) as [idx|] eqn:E; [|eauto].
    apply out_node_loop_Some_count in E. lia.
  - intros Hne.
    destruct (out_node_loop (_vertices self) 0) as [idx|] eqn:E.
    + split.
      * intros H0. apply out_node_loop_Some_count in E. lia.
      * intros _. destruct Hout as (i & v & -> & Hi & Hv & Hfirst).
        destruct (connect_with_outlet hypot self _ Hne E) as (ds & us & Hc & _).
        eexists ds, us, _, i, v. split; [exact Hc|]. simpl.
        split_and!; auto.
    + split.
      * intros _. now apply connect_no_outlet.
      * intros H1. lia.
Qed.

(** C3 (as amended).  The two tables that [connect] returns are filled by
    one pass over the edge list, with no propagation from the outlet: for
    every edge both of whose ends are matched, to vertices [s] and [t],
    the downstream table holds [t] at [(s, edge)] and the upstream table
    holds [s] at [(t, edge)], whether or not the edge can be reached from
    the outlet; every other entry is the sentinel. *)
Theorem connect_tables_from_edges (self self' : Catchment) (ds us : matrix) :
  connect hypot self = (Ok (ds, us), self') ->
  forall (v e : nat) (edge : Reach),
    (v < length (_vertices self))%nat -> _edges self !! e = Some edge ->
    entry ds v e =
      Some match bound_ends hypot self edge with
           | Some (s, t) => if decide (Z.of_nat v = s) then t else _endSentinel self
           | None => _endSentinel self
           end /\
    entry us v e =
      Some match bound_ends hypot self edge with
           | Some (s, t) => if decide (Z.of_nat v = t) then s else _endSentinel self
           | None => _endSentinel self
           end.
Proof.
  intros Hc v e edge Hv He.
  destruct (connect_Ok_tables hypot _ _ _ _ Hc) as (_ & _ & H).
  exact (H v e edge Hv He).
Qed.

(** C9.  Calling [connect] on the object that a first call left behind
    gives the same outcome as the first call, tables or exception, and
    leaves the same object: nothing accumulates. *)
Theorem connect_twice (self : Catchment) :
  fst (connect hypot (snd (connect hypot self))) = fst (connect hypot self) /\
  snd (connect hypot (snd (connect hypot self))) = snd (connect hypot self).
Proof.
  rewrite (connect_unfold hypot self).
  destruct (connection_loop hypot self (_edges self) 0 _) as [cm|] eqn:Hcm.
  - destruct (out_node_loop (_vertices self) 0) as [idx|] eqn:Hidx.
    + destruct (incidence_loop hypot self (_edges self) 0 _ _) as [[ds us]|] eqn:Hinc;
        simpl fst; simpl snd; rewrite connect_unfold; simpl;
        rewrite (connection_loop_ext hypot _ self (_edges self)) by reflexivity;
        rewrite Hcm, Hidx;
        rewrite (incidence_loop_ext hypot _ self (_edges self)) by reflexivity;
        rewrite Hinc; now simpl.
    + simpl fst; simpl snd. rewrite connect_unfold. now rewrite Hcm, Hidx.
  - simpl fst; simpl snd. rewrite connect_unfold. now rewrite Hcm.
Qed.

(** C2 (as amended).  Several edges whose upstream ends are matched to one
    vertex are not a data error: with an outlet and every edge holding a
    point, [connect] returns, and row [v] of the downstream table has one
    non-sentinel entry for each edge, with both ends matched, whose
    upstream end is matched to [v]; so a row has at most one such entry
    exactly when at most one such edge starts at its vertex. *)
Theorem connect_downstream_row_entries (self : Catchment) :
  Forall (fun e => _vector e <> []) (_edges self) ->
  (1 <= outlet_count (_vertices self))%nat ->
  _endSentinel self = -1 ->
  exists (ds us : matrix) (self' : Catchment),
    connect hypot self = (Ok (ds, us), self') /\
    forall v : nat,
      (v < length (_vertices self))%nat ->
      row_entries ds (-1) v =
        length (List.filter (starts_at hypot self v) (_edges self)).
Proof.
  intros Hne Hcount Hsent.
  pose proof (out_node_loop_spec (_vertices self) 0) as Hout.
  destruct (out_node_loop (_vertices self) 0) as [idx|] eqn:E; [clear Hout|lia].
  destruct (connect_with_outlet hypot self idx Hne E) as (ds & us & Hc & Hds & _ & H).
  eexists ds, us, _. split; [exact Hc|].
  intros v Hv. unfold row_entries.
  rewrite (row_from_entries ds _ (_edges self) v
             (fun edge => match bound_ends hypot self edge with
                          | Some (s, t) => if decide (Z.of_nat v = s) then t else -1
                          | None => -1
                          end) Hds Hv).
  - apply filter_map_length. intros edge _. unfold starts_at.
    destruct (bound_ends hypot self edge) as [[s t]|] eqn:Hb; [|reflexivity].
    destruct (bound_ends_in_range _ _ _ _ _ Hb) as [_ Ht].
    destruct (decide (Z.of_nat v = s)) as [->|Hs].
    + rewrite Z.eqb_refl. apply negb_true_iff. apply Z.eqb_neq. lia.
    + simpl. symmetry. apply Z.eqb_neq. lia.
  - intros e edge He. destruct (H v e edge Hv He) as [-> _].
    now rewrite Hsent.
Qed.

(** C6 (as amended).  The tolerances are the other way round.  Binding an
    edge's ends in [connect] uses the tight tolerance [1e-6]: an entry
    [w] of the downstream table at [(v, edge)] other than the sentinel
    means that the start point of the edge is within [1e-6] of vertex [v]
    and its end point within [1e-6] of vertex [w].  The re-lookup by
    coordinates of the incidence search uses the loose tolerance [0.1]: it
    returns a vertex only within [0.1] of the point, and finds one
    whenever some vertex is within [0.1]. *)
Theorem connect_binding_tolerance (self self' : Catchment) (ds us : matrix) :
  connect hypot self = (Ok (ds, us), self') ->
  (forall (v e : nat) (w : Z) (edge : Reach),
      entry ds v e = Some w -> w <> _endSentinel self ->
      _edges self !! e = Some edge ->
      exists (a b : Node) (dv dw : float),
        getStart edge = Ok a /\ getEnd edge = Ok b /\
        distances hypot (_vertices self) (coordinates a) !! v = Some dv /\
        PrimFloat.leb dv 1e-6 = true /\
        distances hypot (_vertices self) (coordinates b) !! Z.to_nat w = Some dw /\
        PrimFloat.leb dw 1e-6 = true) /\
  (forall (coords : float * float) (i : nat),
      _find_vertex_by_coordinates hypot self coords _find_vertex_by_coordinates_tol
        = Z.of_nat i ->
      exists d : float,
        distances hypot (_vertices self) coords !! i = Some d /\
        PrimFloat.leb d 1e-1 = true) /\
  (forall (coords : float * float) (i : nat) (d : float),
      distances hypot (_vertices self) coords !! i = Some d ->
      PrimFloat.leb d 1e-1 = true ->
      _find_vertex_by_coordinates hypot self coords _find_vertex_by_coordinates_tol
        <> -1).
Proof.
  intros Hc. split_and!.
  - intros v e w edge Hw Hsent He.
    destruct (connect_Ok_tables hypot _ _ _ _ Hc) as (Hds & _ & H).
    destruct (entry_in_dims _ _ _ _ _ _ Hds Hw) as [Hv _].
    destruct (H v e edge Hv He) as [Hd _].
    rewrite Hw in Hd. injection Hd as Hw'.
    unfold bound_ends in Hw'.
    destruct (getStart edge) as [a|]; [|congruence].
    destruct (getEnd edge) as [b|]; [|congruence].
    pose proof (find_closest_vertex_bound hypot self a _find_closest_vertex_tol) as Ha.
    pose proof (find_closest_vertex_bound hypot self b _find_closest_vertex_tol) as Hb.
    simpl in Ha, Hb.
    destruct (_ =? -1) eqn:E1; simpl in Hw'; [congruence|].
    destruct (_find_closest_vertex hypot self b _ =? -1) eqn:E2; [congruence|].
    apply Z.eqb_neq in E1, E2.
    destruct (decide (Z.of_nat v = _)) as [Hvs|]; [|congruence].
    destruct Ha as [Ha|(j & d & Hj & Hdj & Hnum & Hlt)]; [congruence|].
    destruct Hb as [Hb|(j' & d' & Hj' & Hdj' & Hnum' & Hlt')]; [congruence|].
    exists a, b, d, d'. split_and!; auto.
    + replace v with j by lia. exact Hdj.
    + apply ltb_false_leb; auto.
    + rewrite Hw', Hj', Nat2Z.id. exact Hdj'.
    + apply ltb_false_leb; auto.
  - intros coords i Hi.
    destruct (by_coordinates_loop_spec hypot coords _find_vertex_by_coordinates_tol
                (_vertices self) 0) as [[Hr _]|(j & d & Hr & Hj & Hd & _)];
      unfold _find_vertex_by_coordinates in Hi; [lia|].
    exists d. replace i with j by lia. auto.
  - intros coords i d Hi Hd Hr.
    destruct (by_coordinates_loop_spec hypot coords _find_vertex_by_coordinates_tol
                (_vertices self) 0) as [[_ Hall]|(j & d' & Hr' & _)];
      unfold _find_vertex_by_coordinates in Hr; [|lia].
    rewrite Forall_lookup in Hall. specialize (Hall i d Hi). simpl in Hall.
    unfold _find_vertex_by_coordinates_tol in Hall. congruence.
Qed.

(** C10.  The vertex list of a constructed catchment is the confluence list
    followed by the basin list, so index [i] denotes the [i]-th confluence
    below the number of confluences and a basin from there on; [connect]
    leaves the vertex list and the edge list as they are, and every
    entry of its tables other than the sentinel is an index into that
    vertex list. *)
Theorem vertex_order_fixed (confluences : option (list Confluence))
    (basins : option (list Basin)) (reaches : option (list Reach)) :
  let C := default [] confluences in
  let B := default [] basins in
  let self := Catchment_init confluences basins reaches in
  _vertices self = map VConfluence C ++ map VBasin B /\
  _edges self = default [] reaches /\
  (forall (i : nat) (c : Confluence),
      C !! i = Some c -> _vertices self !! i = Some (VConfluence c)) /\
  (forall (i : nat) (b : Basin),
      B !! i = Some b -> _vertices self !! (length C + i)%nat = Some (VBasin b)) /\
  _vertices (snd (connect hypot self)) = _vertices self /\
  _edges (snd (connect hypot self)) = _edges self /\
  (forall (ds us : matrix) (self' : Catchment) (v e : nat) (w : Z),
      connect hypot self = (Ok (ds, us), self') ->
      entry ds v e = Some w \/ entry us v e = Some w ->
      w = -1 \/ 0 <= w < Z.of_nat (length C + length B)).
Proof.
  intros C B self.
  assert (Hvs : _vertices self = map VConfluence C ++ map VBasin B).
  { subst self C B. unfold Catchment_init. simpl.
    destruct confluences as [[|c cs]|], basins as [[|b bs]|]; simpl;
      rewrite ?app_nil_r; reflexivity. }
  split_and!.
  - exact Hvs.
  - subst self. now destruct reaches.
  - intros i c Hi. rewrite Hvs. rewrite lookup_app_l.
    + rewrite list_lookup_fmap, Hi. reflexivity.
    + rewrite length_map. now apply lookup_lt_Some in Hi.
  - intros i b Hi. rewrite Hvs. rewrite lookup_app_r; rewrite length_map; [|lia].
    replace (length C + i - length C)%nat with i by lia.
    rewrite list_lookup_fmap, Hi. reflexivity.
  - apply connect_frame.
  - apply connect_frame.
  - intros ds us self' v e w Hc Hw.
    assert (Hlen : length (_vertices self) = (length C + length B)%nat).
    { rewrite Hvs, length_app, !length_map. reflexivity. }
    destruct (connect_Ok_tables hypot _ _ _ _ Hc) as (Hds & Hus & H).
    assert (Hve : (v < length (_vertices self))%nat /\ (e < length (_edges self))%nat).
    { destruct Hw as [Hw|Hw];
        [exact (entry_in_dims _ _ _ _ _ _ Hds Hw)|exact (entry_in_dims _ _ _ _ _ _ Hus Hw)]. }
    destruct Hve as [Hv He].
    destruct (lookup_lt_is_Some_2 (_edges self) e He) as [edge Hedge].
    destruct (H v e edge Hv Hedge) as [Hd Hu].
    change (_endSentinel self) with (-1) in Hd, Hu.
    rewrite <- Hlen.
    destruct (bound_ends hypot self edge) as [[s t]|] eqn:Hb.
    + destruct (bound_ends_in_range _ _ _ _ _ Hb) as [Hs Ht].
      destruct Hw as [Hw|Hw].
      * rewrite Hw in Hd. injection Hd as ->. destruct (decide _); [right|left]; lia.
      * rewrite Hw in Hu. injection Hu as ->. destruct (decide _); [right|left]; lia.
    + destruct Hw as [Hw|Hw]; left; congruence.
Qed.

End ConnectProperties.

(** ** Properties of the downstream sub-area resolution *)

Section WBNMFacts.

Variable down : Z -> result Z.
Variable getNode : Z -> result Vertex.
Variable traveller_endSentinel : Z.

Abbreviation getDs := (_getDsIndex down getNode traveller_endSentinel).
Abbreviation junction := (junction_at down getNode).
Abbreviation basin := (basin_at down getNode).
Abbreviation outlet := (outlet_at down getNode).

Lemma walk_S_head (k : nat) (i : Z) :
  walk down (S k) i = (v ← down i; walk down k v).
Proof.
  induction k as [|k IH].
  - simpl. now destruct (down i).
  - change (walk down (S (S k)) i) with (v ← walk down (S k) i; down v).
    rewrite IH. now destruct (down i).
Qed.

Lemma junction_step (i v : Z) (j : nat) :
  down i = Ok v -> junction (S j) i -> junction j v.
Proof.
  intros Hd (u & c & Hw & Hn & Hc). rewrite walk_S_head, Hd in Hw.
  exists u, c. auto.
Qed.

Lemma basin_step (i v t : Z) (j : nat) :
  down i = Ok v -> basin (S j) i t -> basin j v t.
Proof.
  intros Hd (b & Hw & Hn). rewrite walk_S_head, Hd in Hw.
  exists b. auto.
Qed.

Lemma outlet_step (i v : Z) (j : nat) :
  down i = Ok v -> outlet (S j) i -> outlet j v.
Proof.
  intros Hd (u & c & Hw & Hn & Hc). rewrite walk_S_head, Hd in Hw.
  exists u, c. auto.
Qed.

(** One call at a pure junction passes the question on. *)
Lemma getDs_junction (i : Z) (depth : nat) :
  junction 1 i -> exists v, down i = Ok v /\ getDs (S depth) i = getDs depth v.
Proof.
  intros (v & c & Hw & Hn & Hc). simpl in Hw.
  exists v. split; [exact Hw|]. simpl. rewrite Hw. simpl. rewrite Hn. simpl.
  now rewrite Hc.
Qed.

(** Past [k] pure junctions, the recursion returns the Basin it meets, or
    the end sentinel at the outlet, within [k + 1] nested calls. *)
Lemma getDs_after_junctions (k : nat) :
  forall i : Z,
    (forall j : nat, (1 <= j <= k)%nat -> junction j i) ->
    (forall t : Z, basin (S k) i t ->
       forall depth : nat, (k < depth)%nat -> getDs depth i = Ok (Some t)) /\
    (outlet (S k) i ->
       forall depth : nat, (k < depth)%nat ->
         getDs depth i = Ok (Some traveller_endSentinel)).
Proof.
  induction k as [|k IH]; intros i Hj.
  - split.
    + intros t (b & Hw & Hn) [|depth] Hd; [lia|].
      simpl in Hw. simpl. rewrite Hw. simpl. now rewrite Hn.
    + intros (v & c & Hw & Hn & Hc) [|depth] Hd; [lia|].
      simpl in Hw. simpl. rewrite Hw. simpl. rewrite Hn. simpl. now rewrite Hc.
  - destruct (getDs_junction i 0 (Hj 1%nat ltac:(lia))) as (v & Hv & _).
    assert (Hjv : forall j : nat, (1 <= j <= k)%nat -> junction j v).
    { intros j Hjk. apply (junction_step i); [exact Hv|]. apply Hj. lia. }
    destruct (IH v Hjv) as [IHb IHo].
    split.
    + intros t Hb [|depth] Hd; [lia|].
      destruct (getDs_junction i depth (Hj 1%nat ltac:(lia))) as (v' & Hv' & ->).
      assert (v' = v) by congruence. subst v'.
      apply IHb; [|lia]. now apply (basin_step i).
    + intros Ho [|depth] Hd; [lia|].
      destruct (getDs_junction i depth (Hj 1%nat ltac:(lia))) as (v' & Hv' & ->).
      assert (v' = v) by congruence. subst v'.
      apply IHo; [|lia]. now apply (outlet_step i).
Qed.

(** As long as only pure junctions are met, the recursion is still open. *)
Lemma getDs_open (k : nat) :
  forall i : Z,
    (forall j : nat, (1 <= j <= k)%nat -> junction j i) ->
    forall depth : nat, (depth <= k)%nat -> getDs depth i = Ok None.
Proof.
  induction k as [|k IH]; intros i Hj [|depth] Hd; try reflexivity; [lia|].
  destruct (getDs_junction i depth (Hj 1%nat ltac:(lia))) as (v & Hv & ->).
  apply IH; [|lia].
  intros j Hjk. apply (junction_step i); [exact Hv|]. apply Hj. lia.
Qed.

(** On the way to the outlet there is a first vertex that is not a pure
    junction. *)
Lemma first_stop (d : nat) :
  forall i : Z,
    (1 <= d)%nat -> outlet d i ->
    (forall j : nat, (1 <= j < d)%nat -> junction j i \/ exists t, basin j i t) ->
    exists k : nat,
      (k < d)%nat /\
      (forall j : nat, (1 <= j <= k)%nat -> junction j i) /\
      ((exists t, basin (S k) i t) \/ S k = d).
Proof.
  induction d as [|d IH]; intros i Hd Ho Hpath; [lia|].
  destruct d as [|d].
  - exists O. split_and!; [lia| |now right]. intros j Hj. lia.
  - destruct (Hpath 1%nat ltac:(lia)) as [Hj1|Hb1].
    + destruct (getDs_junction i 0 Hj1) as (v & Hv & _).
      destruct (IH v ltac:(lia) (outlet_step i v _ Hv Ho)) as (k & Hk & Hjs & Hstop).
      { intros j Hj. destruct (Hpath (S j) ltac:(lia)) as [H|[t H]].
        - left. now apply (junction_step i).
        - right. exists t. now apply (basin_step i). }
      exists (S k). split_and!; [lia| |].
      * intros [|[|j]] Hj; [lia|exact Hj1|].
        destruct (Hjs (S j) ltac:(lia)) as (u & c & Hw & Hn & Hc).
        exists u, c. rewrite walk_S_head, Hv. auto.
      * destruct Hstop as [[t (b & Hw & Hn)]|Hstop]; [left|right; lia].
        exists t, b. rewrite walk_S_head, Hv. auto.
    + exists O. split_and!; [lia| |now left]. intros j Hj. lia.
Qed.

End WBNMFacts.

Section WBNMProperties.

Variable down : Z -> result Z.
Variable getNode : Z -> result Vertex.
Variable traveller_endSentinel : Z.

(** C4.  On a tree in which the downstream walk from vertex [i] reaches the
    outlet after [d >= 1] steps through Basins and Confluences,
    [_getDsIndex] follows the downstream link, passes over every
    Confluence that is not the outlet, and returns the first Basin it
    reaches, or the end-of-traversal sentinel when it reaches the outlet
    with no Basin on the way. *)
Theorem getDsIndex_resolves (i : Z) (d : nat) :
  (1 <= d)%nat ->
  outlet_at down getNode d i ->
  (forall j : nat, (1 <= j < d)%nat ->
     junction_at down getNode j i \/ exists t, basin_at down getNode j i t) ->
  exists (k : nat) (r : Z),
    (k < d)%nat /\
    (forall j : nat, (1 <= j <= k)%nat -> junction_at down getNode j i) /\
    (basin_at down getNode (S k) i r \/ (S k = d /\ r = traveller_endSentinel)) /\
    forall depth : nat, (d <= depth)%nat ->
      _getDsIndex down getNode traveller_endSentinel depth i = Ok (Some r).
Proof.
  intros Hd Ho Hpath.
  destruct (first_stop down getNode traveller_endSentinel d i Hd Ho Hpath) as (k & Hk & Hjs & Hstop).
  destruct (getDs_after_junctions down getNode traveller_endSentinel k i Hjs)
    as [Hb Hout].
  destruct Hstop as [[t Ht]|Hlast].
  - exists k, t. split_and!; auto.
    intros depth Hdepth. apply Hb; [exact Ht|lia].
  - exists k, traveller_endSentinel. split_and!; auto.
    intros depth Hdepth. apply Hout; [now rewrite Hlast|lia].
Qed.

(** C5 (as amended).  On a tree in which the downstream walk from [i]
    reaches the outlet after [d >= 1] steps, [_getDsIndex] returns within
    [d] nested calls.  There is no cycle guard and no malformed-topology
    error: when the walk from [i] meets only Confluences that are not the
    outlet, as on a cycle of them, the recursion is still open after any
    number of nested calls. *)
Theorem getDsIndex_termination (i : Z) :
  (forall d : nat,
      (1 <= d)%nat ->
      outlet_at down getNode d i ->
      (forall j : nat, (1 <= j < d)%nat ->
         junction_at down getNode j i \/ exists t, basin_at down getNode j i t) ->
      forall depth : nat, (d <= depth)%nat ->
        exists r : Z,
          _getDsIndex down getNode traveller_endSentinel depth i = Ok (Some r)) /\
  ((forall j : nat, (1 <= j)%nat -> junction_at down getNode j i) ->
   forall depth : nat,
     _getDsIndex down getNode traveller_endSentinel depth i = Ok None).
Proof.
  split.
  - intros d Hd Ho Hpath depth Hdepth.
    destruct (first_stop down getNode traveller_endSentinel d i Hd Ho Hpath) as (k & Hk & Hjs & Hstop).
    destruct (getDs_after_junctions down getNode traveller_endSentinel k i Hjs)
      as [Hb Hout].
    destruct Hstop as [[t Ht]|Hlast].
    + exists t. apply Hb; [exact Ht|lia].
    + exists traveller_endSentinel. apply Hout; [now rewrite Hlast|lia].
  - intros Hj depth.
    apply (getDs_open down getNode traveller_endSentinel depth); [|lia].
    intros j Hjd. apply Hj. lia.
Qed.

End WBNMProperties.

(** ** Concrete runs *)

Ltac edges_hold_points := repeat constructor; discriminate.

(** Two Confluences are flagged as outlet and [connect] returns its tables,
    with the first of them as the outlet. *)
Lemma connect_two_outlets_returns :
  outlet_count (_vertices two_outlets) = 2%nat /\
  fst (connect hypot_sqrt two_outlets) =
    Ok ([[-1; -1]; [-1; 0]; [1; -1]], [[-1; 1]; [2; -1]; [-1; -1]]) /\
  _out_node_index (snd (connect hypot_sqrt two_outlets)) = 0.
Proof. vm_compute. auto. Qed.

Lemma connect_outlet_detection_witness :
  connect hypot_sqrt no_outlet =
    (Raise (ValueError "No 'out' node found in confluences."), no_outlet) /\
  exists (ds us : matrix) (self' : Catchment) (i : nat) (v : Vertex),
    connect hypot_sqrt two_outlets = (Ok (ds, us), self') /\
    _out_node_index self' = Z.of_nat i /\
    _vertices two_outlets !! i = Some v /\ is_outlet v = true /\
    forall (j : nat) (v' : Vertex),
      (j < i)%nat -> _vertices two_outlets !! j = Some v' -> is_outlet v' = false.
Proof.
  split.
  - apply (proj2 (connect_outlet_detection hypot_sqrt no_outlet)); [edges_hold_points|].
    reflexivity.
  - apply (proj2 (connect_outlet_detection hypot_sqrt two_outlets)); [edges_hold_points|].
    vm_compute. lia.
Defined.

(** A reach without points stops [connect] in its first loop, before the
    outlet search. *)
Example connect_empty_reach :
  connect hypot_sqrt empty_reach = (Raise IndexError, empty_reach).
Proof. reflexivity. Qed.

(** Two edges start at the Basin, [connect] returns, and the Basin's row of
    the downstream table holds two vertex indices. *)
Lemma connect_forked_two_downstream_entries :
  fst (connect hypot_sqrt forked) =
    Ok ([[-1; -1]; [-1; -1]; [1; 0]], [[-1; 2]; [2; -1]; [-1; -1]]) /\
  row_entries [[-1; -1]; [-1; -1]; [1; 0]] (-1) 2 = 2%nat.
Proof. vm_compute. auto. Qed.

Lemma connect_downstream_row_entries_witness :
  exists (ds us : matrix) (self' : Catchment),
    connect hypot_sqrt forked = (Ok (ds, us), self') /\
    forall v : nat,
      (v < length (_vertices forked))%nat ->
      row_entries ds (-1) v =
        length (List.filter (starts_at hypot_sqrt forked v) (_edges forked)).
Proof.
  apply (connect_downstream_row_entries hypot_sqrt forked).
  - edges_hold_points.
  - vm_compute. lia.
  - reflexivity.
Defined.

(** The edge between the two Basins cannot be reached from the outlet: the
    breadth-first searches of [_build_incidence_matrices], run on the
    connection matrix from the outlet, leave both tables at the sentinel,
    while the tables that [connect] returns hold the edge. *)
Lemma connect_detached_edge_recorded :
  fst (connect hypot_sqrt detached) = Ok ([[-1]; [2]; [-1]], [[-1]; [-1]; [1]]) /\
  (cm ← _initialize_connection_matrix hypot_sqrt detached 3 1;
   _build_incidence_matrices hypot_sqrt 4 (snd (connect hypot_sqrt detached)) cm
     (np_full 3 1 (-1)) (np_full 3 1 (-1)) 3 1) =
    Ok (Some ([[-1]; [-1]; [-1]], [[-1]; [-1]; [-1]])).
Proof. vm_compute. auto. Qed.

Lemma connect_tables_from_edges_witness :
  let edge := reach_along [node_at 10 0; node_at 20 0] in
  entry [[-1]; [2]; [-1]] 1 0 =
    Some match bound_ends hypot_sqrt detached edge with
         | Some (s, t) => if decide (Z.of_nat 1 = s) then t else _endSentinel detached
         | None => _endSentinel detached
         end /\
  entry [[-1]; [-1]; [1]] 1 0 =
    Some match bound_ends hypot_sqrt detached edge with
         | Some (s, t) => if decide (Z.of_nat 1 = t) then s else _endSentinel detached
         | None => _endSentinel detached
         end.
Proof.
  apply (connect_tables_from_edges hypot_sqrt detached (snd (connect hypot_sqrt detached))).
  - vm_compute. reflexivity.
  - vm_compute. lia.
  - reflexivity.
Defined.

(** An end point 0.0625 away from a vertex is beyond the tolerance of the
    binding lookup and within that of the re-lookup by coordinates; the edge
    of [offset_edge] is therefore left out of the tables. *)
Lemma binding_is_tight_relookup_is_loose :
  _find_closest_vertex hypot_sqrt offset_edge (node_at 0.0625 0)
    _find_closest_vertex_tol = -1 /\
  _find_vertex_by_coordinates hypot_sqrt offset_edge (0.0625, 0)%float
    _find_vertex_by_coordinates_tol = 0 /\
  fst (connect hypot_sqrt offset_edge) = Ok ([[-1]; [-1]], [[-1]; [-1]]).
Proof. vm_compute. auto. Qed.

Lemma connect_binding_tolerance_witness :
  exists (a b : Node) (dv dw : float),
    getStart (reach_along [node_at 40 0; node_at 30 0]) = Ok a /\
    getEnd (reach_along [node_at 40 0; node_at 30 0]) = Ok b /\
    distances hypot_sqrt (_vertices chain) (coordinates a) !! 4%nat = Some dv /\
    PrimFloat.leb dv 1e-6 = true /\
    distances hypot_sqrt (_vertices chain) (coordinates b) !! Z.to_nat 2 = Some dw /\
    PrimFloat.leb dw 1e-6 = true.
Proof.
  apply (connect_binding_tolerance hypot_sqrt chain chain_connected
           [[-1; -1; -1; -1]; [-1; -1; 3; -1]; [-1; 1; -1; -1]; [-1; -1; -1; 0];
            [2; -1; -1; -1]]
           [[-1; -1; -1; 3]; [-1; 2; -1; -1]; [4; -1; -1; -1]; [-1; -1; 1; -1];
            [-1; -1; -1; -1]]) with (e := 0%nat).
  - vm_compute. reflexivity.
  - reflexivity.
  - vm_compute. discriminate.
  - reflexivity.
Defined.

(** Three vertices at the distance of the tolerance: the first is returned. *)
Lemma find_closest_vertex_nearest_witness :
  exists (i : nat) (d : float),
    _find_closest_vertex hypot_sqrt equidistant (node_at 0 0) 5 = Z.of_nat i /\
    distances hypot_sqrt (_vertices equidistant) (coordinates (node_at 0 0)) !! i = Some d /\
    PrimFloat.leb d 5 = true /\
    Forall (fun d' => PrimFloat.leb d d' = true)
      (distances hypot_sqrt (_vertices equidistant) (coordinates (node_at 0 0))) /\
    forall (j : nat) (d' : float),
      (j < i)%nat ->
      distances hypot_sqrt (_vertices equidistant) (coordinates (node_at 0 0)) !! j = Some d' ->
      PrimFloat.ltb d d' = true.
Proof.
  apply (find_closest_vertex_nearest hypot_sqrt equidistant (node_at 0 0) 5).
  - reflexivity.
  - repeat constructor.
  - apply Exists_cons_hd. reflexivity.
Defined.

(** At the tolerance the first vertex matches; with the tolerance one
    binary64 step below the distance, none does. *)
Example find_closest_vertex_equidistant :
  _find_closest_vertex hypot_sqrt equidistant (node_at 0 0) 5 = 0 /\
  _find_closest_vertex hypot_sqrt equidistant (node_at 0 0) (next_down 5) = -1.
Proof. vm_compute. auto. Qed.

(** The re-lookup stops at the first vertex within the tolerance, the
    closest-vertex lookup goes on to the nearer one. *)
Lemma relookup_differs_from_closest :
  _find_vertex_by_coordinates hypot_sqrt near_then_exact (coordinates (node_at 0 0)) 0.125 = 0 /\
  _find_closest_vertex hypot_sqrt near_then_exact (node_at 0 0) 0.125 = 1.
Proof. vm_compute. auto. Qed.

Lemma find_vertex_by_coordinates_first_witness :
  (_find_vertex_by_coordinates hypot_sqrt near_then_exact (coordinates (node_at 0 0)) 0.125 = -1
   <-> _find_closest_vertex hypot_sqrt near_then_exact (node_at 0 0) 0.125 = -1).
Proof.
  apply (find_vertex_by_coordinates_first hypot_sqrt near_then_exact (node_at 0 0) 0.125).
  - reflexivity.
  - repeat constructor.
Defined.

(** The downstream walk over [chain], once connected: from Basin 4 it passes
    Confluences 2 and 1 and stops at Basin 3; from Basin 3 it reaches the
    outlet. *)
Example getDsIndex_chain :
  _getDsIndex (Traveller.down chain_connected) (Traveller.getNode chain_connected)
    (_endSentinel chain_connected) 4 4 = Ok (Some 3) /\
  _getDsIndex (Traveller.down chain_connected) (Traveller.getNode chain_connected)
    (_endSentinel chain_connected) 4 3 = Ok (Some (-1)).
Proof. vm_compute. auto. Qed.

Lemma chain_path :
  forall j : nat, (1 <= j < 4)%nat ->
    junction_at (Traveller.down chain_connected) (Traveller.getNode chain_connected) j 4 \/
    exists t, basin_at (Traveller.down chain_connected) (Traveller.getNode chain_connected) j 4 t.
Proof.
  intros j Hj.
  destruct j as [|[|[|[|j]]]]; try lia.
  - left. exists 2, (confluence_at 30 0 false). vm_compute. auto.
  - left. exists 1, (confluence_at 20 0 false). vm_compute. auto.
  - right. exists 3, (basin_at_point 10 0). vm_compute. auto.
Qed.

Lemma chain_outlet :
  outlet_at (Traveller.down chain_connected) (Traveller.getNode chain_connected) 4 4.
Proof. exists 0, (confluence_at 0 0 true). vm_compute. auto. Qed.

Lemma getDsIndex_resolves_witness :
  exists (k : nat) (r : Z),
    (k < 4)%nat /\
    (forall j : nat, (1 <= j <= k)%nat ->
       junction_at (Traveller.down chain_connected) (Traveller.getNode chain_connected) j 4) /\
    (basin_at (Traveller.down chain_connected) (Traveller.getNode chain_connected) (S k) 4 r \/
     (S k = 4%nat /\ r = _endSentinel chain_connected)) /\
    forall depth : nat, (4 <= depth)%nat ->
      _getDsIndex (Traveller.down chain_connected) (Traveller.getNode chain_connected)
        (_endSentinel chain_connected) depth 4 = Ok (Some r).
Proof.
  apply (getDsIndex_resolves (Traveller.down chain_connected)
           (Traveller.getNode chain_connected) (_endSentinel chain_connected) 4 4).
  - lia.
  - exact chain_outlet.
  - exact chain_path.
Defined.

(** On [cycle], once connected, the walk from Confluence 1 alternates between
    Confluences 2 and 1. *)
Lemma cycle_walk (j : nat) :
  walk (Traveller.down cycle_connected) j 1 = Ok (if Nat.even j then 1 else 2).
Proof.
  induction j as [|j IH]; [reflexivity|].
  change (walk (Traveller.down cycle_connected) (S j) 1)
    with (v ← walk (Traveller.down cycle_connected) j 1; Traveller.down cycle_connected v).
  rewrite IH. rewrite Nat.even_succ, <- Nat.negb_even.
  destruct (Nat.even j); vm_compute; reflexivity.
Qed.

Lemma cycle_junctions (j : nat) :
  (1 <= j)%nat ->
  junction_at (Traveller.down cycle_connected) (Traveller.getNode cycle_connected) j 1.
Proof.
  intros _. unfold junction_at. rewrite cycle_walk.
  destruct (Nat.even j).
  - exists 1, (confluence_at 10 0 false). vm_compute. auto.
  - exists 2, (confluence_at 20 0 false). vm_compute. auto.
Qed.

(** The graph has three vertices; from Confluence 1, which lies on a cycle
    of Confluences that are not the outlet, no number of nested calls
    brings a result or an exception. *)
Lemma getDsIndex_cycle_never_ends :
  length (_vertices cycle_connected) = 3%nat /\
  ~ exists depth : nat,
      _getDsIndex (Traveller.down cycle_connected) (Traveller.getNode cycle_connected)
        (_endSentinel cycle_connected) depth 1 <> Ok None.
Proof.
  split; [reflexivity|].
  intros [depth H]. apply H.
  apply (getDs_open _ _ _ depth); [|lia].
  intros j Hj. apply cycle_junctions. lia.
Qed.

Lemma getDsIndex_termination_witness :
  (exists r : Z,
      _getDsIndex (Traveller.down chain_connected) (Traveller.getNode chain_connected)
        (_endSentinel chain_connected) 4 4 = Ok (Some r)) /\
  _getDsIndex (Traveller.down cycle_connected) (Traveller.getNode cycle_connected)
    (_endSentinel cycle_connected) 1000 1 = Ok None.
Proof.
  split.
  - apply (proj1 (getDsIndex_termination (Traveller.down chain_connected)
                    (Traveller.getNode chain_connected) (_endSentinel chain_connected) 4)
             4%nat).
    + lia.
    + exact chain_outlet.
    + exact chain_path.
    + lia.
  - apply (proj2 (getDsIndex_termination (Traveller.down cycle_connected)
                    (Traveller.getNode cycle_connected) (_endSentinel cycle_connected) 1)).
    exact cycle_junctions.
Defined.

(** ** Further properties of the lookups and of [connect] *)

Section ConnectMore.

Variable hypot : float -> float -> float.

Import FloatOrder.

(** The first loop writes, in the column of an edge with both ends matched,
    tag 1 at the start vertex and then tag 2 at the end vertex. *)
Lemma connection_loop_spec (self : Catchment) (cols : nat) (es : list Reach) :
  forall (k : Z) (cm : matrix),
    dims cm (length (_vertices self)) cols ->
    0 <= k -> k + Z.of_nat (length es) <= Z.of_nat cols ->
    Forall (fun e => _vector e <> []) es ->
    exists cm',
      connection_loop hypot self es k cm = Ok cm' /\
      dims cm' (length (_vertices self)) cols /\
      (forall (v e : nat),
          (Z.of_nat e < k \/ k + Z.of_nat (length es) <= Z.of_nat e) ->
          entry cm' v e = entry cm v e) /\
      (forall (v j : nat) (edge : Reach),
          es !! j = Some edge ->
          entry cm' v (Z.to_nat (k + Z.of_nat j)) =
            match bound_ends hypot self edge with
            | Some (s, t) =>
                if decide (v = Z.to_nat t) then Some 2
                else if decide (v = Z.to_nat s) then Some 1
                else entry cm v (Z.to_nat (k + Z.of_nat j))
            | None => entry cm v (Z.to_nat (k + Z.of_nat j))
            end).
Proof.
  induction es as [|edge rest IH]; intros k cm Hd Hk Hlen Hne.
  - simpl. exists cm. split_and!; auto. intros v j edge H. inversion H.
  - apply Forall_cons in Hne as [Hedge Hrest]. simpl in Hlen.
    rewrite connection_loop_cons by assumption.
    destruct (bound_ends hypot self edge) as [[s t]|] eqn:Hb.
    + destruct (bound_ends_in_range _ _ _ _ _ Hb) as [Hs Ht].
      destruct (np_set_in_range cm _ _ s k 1 Hd Hs ltac:(lia)) as (cm1 & -> & Hd1 & He1).
      simpl.
      destruct (np_set_in_range cm1 _ _ t k 2 Hd1 Ht ltac:(lia)) as (cm2 & -> & Hd2 & He2).
      simpl.
      destruct (IH (k + 1) cm2 Hd2 ltac:(lia) ltac:(lia) Hrest)
        as (cm' & -> & Hd' & Hframe & Hcols).
      exists cm'. split_and!; auto.
      * intros v e H. rewrite (Hframe v e) by (simpl in *; lia).
        rewrite He2, decide_False by (simpl in *; lia).
        rewrite He1, decide_False by (simpl in *; lia). reflexivity.
      * intros v j edge0 H. destruct j as [|j]; simpl in H.
        -- inversion H; subst edge0. rewrite Hb.
           replace (k + Z.of_nat 0) with k by lia.
           rewrite (Hframe v (Z.to_nat k)) by lia.
           rewrite He2, He1.
           destruct (decide (v = Z.to_nat t)) as [->|Hvt].
           ++ now rewrite decide_True by auto.
           ++ rewrite decide_False by tauto.
              destruct (decide (v = Z.to_nat s)) as [->|Hvs].
              ** now rewrite decide_True by auto.
              ** now rewrite decide_False by tauto.
        -- replace (k + Z.of_nat (S j)) with (k + 1 + Z.of_nat j) by lia.
           rewrite (Hcols v j edge0 H).
           rewrite He2, decide_False by lia.
           rewrite He1, decide_False by lia. reflexivity.
    + destruct (IH (k + 1) cm Hd ltac:(lia) ltac:(lia) Hrest)
        as (cm' & -> & Hd' & Hframe & Hcols).
      exists cm'. split_and!; auto.
      * intros v e H. apply Hframe. simpl in *. lia.
      * intros v j edge0 H. destruct j as [|j]; simpl in H.
        -- inversion H; subst edge0. rewrite Hb.
           replace (k + Z.of_nat 0) with k by lia.
           apply Hframe. lia.
        -- replace (k + Z.of_nat (S j)) with (k + 1 + Z.of_nat j) by lia.
           now rewrite (Hcols v j edge0 H).
Qed.

(** Whatever stops the first loop is an [IndexError]. *)
Lemma connection_loop_Raise (self : Catchment) (es : list Reach) :
  forall (k : Z) (cm : matrix) (e : exn),
    connection_loop hypot self es k cm = Raise e -> e = IndexError.
Proof.
  assert (Hidx : forall len i e, np_index len i = Raise e -> e = IndexError).
  { intros len i e. unfold np_index. repeat destruct (_ && _); congruence. }
  assert (Hget : forall (l : matrix) i e, list_get l i = Raise e -> e = IndexError).
  { intros l i e. unfold list_get.
    destruct (np_index (length l) i) as [n|e'] eqn:E; simpl.
    - destruct (l !! n); congruence.
    - intros [= <-]. eauto. }
  assert (Hset : forall m i j x e, np_set m i j x = Raise e -> e = IndexError).
  { intros m i j x e. unfold np_set.
    destruct (np_index (length m) i) as [r|e'] eqn:E1; simpl; [|intros [= <-]; eauto].
    destruct (list_get m i) as [row|e'] eqn:E2; simpl; [|intros [= <-]; eauto].
    destruct (np_index (length row) j) as [c|e'] eqn:E3; simpl; [discriminate|].
    intros [= <-]. eauto. }
  induction es as [|edge rest IH]; intros k cm e H; simpl in H; [discriminate|].
  unfold getStart, getEnd, getPoint in H. simpl in H.
  destruct (_vector edge) as [|p ps] eqn:Ev; simpl in H; [congruence|].
  destruct (last (p :: ps)) as [q|] eqn:El; simpl in H; [|congruence].
  destruct (_ || _).
  - eapply IH; eauto.
  - destruct (np_set cm _ k 1) as [cm1|e1] eqn:E1; simpl in H;
      [|injection H as <-; eauto].
    destruct (np_set cm1 _ k 2) as [cm2|e2] eqn:E2; simpl in H;
      [|injection H as <-; eauto].
    eapply IH; eauto.
Qed.

Lemma incidence_loop_Raise (self : Catchment) (es : list Reach) :
  forall (k : Z) (ds us : matrix) (e : exn),
    incidence_loop hypot self es k ds us = Raise e -> e = IndexError.
Proof.
  assert (Hidx : forall len i e, np_index len i = Raise e -> e = IndexError).
  { intros len i e. unfold np_index. repeat destruct (_ && _); congruence. }
  assert (Hget : forall (l : matrix) i e, list_get l i = Raise e -> e = IndexError).
  { intros l i e. unfold list_get.
    destruct (np_index (length l) i) as [n|e'] eqn:E; simpl.
    - destruct (l !! n); congruence.
    - intros [= <-]. eauto. }
  assert (Hset : forall m i j x e, np_set m i j x = Raise e -> e = IndexError).
  { intros m i j x e. unfold np_set.
    destruct (np_index (length m) i) as [r|e'] eqn:E1; simpl; [|intros [= <-]; eauto].
    destruct (list_get m i) as [row|e'] eqn:E2; simpl; [|intros [= <-]; eauto].
    destruct (np_index (length row) j) as [c|e'] eqn:E3; simpl; [discriminate|].
    intros [= <-]. eauto. }
  induction es as [|edge rest IH]; intros k ds us e H; simpl in H; [discriminate|].
  unfold getStart, getEnd, getPoint in H. simpl in H.
  destruct (_vector edge) as [|p ps] eqn:Ev; simpl in H; [congruence|].
  destruct (last (p :: ps)) as [q|] eqn:El; simpl in H; [|congruence].
  destruct (negb _ && negb _).
  - destruct (np_set ds _ k _) as [ds1|e1] eqn:E1; simpl in H;
      [|injection H as <-; eauto].
    destruct (np_set us _ k _) as [us1|e2] eqn:E2; simpl in H;
      [|injection H as <-; eauto].
    eapply IH; eauto.
  - eapply IH; eauto.
Qed.

(** A list of reaches either all hold a point or one of them is empty. *)
Lemma reaches_points_or_empty (es : list Reach) :
  Forall (fun e => _vector e <> []) es \/ Exists (fun e => _vector e = []) es.
Proof.
  induction es as [|edge rest [IH|IH]].
  - left. constructor.
  - destruct (_vector edge) as [|p ps] eqn:E.
    + right. now apply Exists_cons_hd.
    + left. constructor; [congruence|assumption].
  - right. now apply Exists_cons_tl.
Qed.

(** The tags of the connection matrix. *)
Lemma connection_matrix_tags (self : Catchment) :
  Forall (fun e => _vector e <> []) (_edges self) ->
  exists cm : matrix,
    _initialize_connection_matrix hypot self
      (length (_vertices self)) (length (_edges self)) = Ok cm /\
    dims cm (length (_vertices self)) (length (_edges self)) /\
    forall (v e : nat) (edge : Reach),
      (v < length (_vertices self))%nat -> _edges self !! e = Some edge ->
      entry cm v e =
        Some match bound_ends hypot self edge with
             | Some (s, t) =>
                 if decide (Z.of_nat v = t) then 2
                 else if decide (Z.of_nat v = s) then 1 else 0
             | None => 0
             end.
Proof.
  intros Hne. unfold _initialize_connection_matrix.
  destruct (connection_loop_spec self (length (_edges self)) (_edges self) 0
              (np_zeros _ _) (dims_np_full _ _ _) ltac:(lia) ltac:(lia) Hne)
    as (cm & -> & Hd & _ & Hcols).
  exists cm. split_and!; auto.
  intros v e edge Hv He.
  specialize (Hcols v e edge He).
  replace (Z.to_nat (0 + Z.of_nat e)) with e in Hcols by lia.
  assert (Hlt : (e < length (_edges self))%nat) by (now apply lookup_lt_Some in He).
  unfold np_zeros in Hcols. rewrite (entry_np_full _ _ _ v e Hv Hlt) in Hcols.
  rewrite Hcols.
  destruct (bound_ends hypot self edge) as [[s t]|] eqn:Hb; [|reflexivity].
  destruct (bound_ends_in_range _ _ _ _ _ Hb) as [Hs Ht].
  destruct (decide (v = Z.to_nat t)), (decide (Z.of_nat v = t)); try lia; [reflexivity|].
  destruct (decide (v = Z.to_nat s)), (decide (Z.of_nat v = s)); try lia; reflexivity.
Qed.

(** X1.  [_initialize_connection_matrix], called with the numbers of vertices
    and edges of the object whose reaches all hold a point, returns a matrix
    with one row per vertex and one column per edge; in the column of an
    edge with both ends matched, the end vertex holds tag 2, the start
    vertex holds tag 1 unless it is the end vertex too, and every other
    entry, like the whole column of an edge with an unmatched end, is 0. *)
Theorem initialize_connection_matrix_tags (self : Catchment) :
  Forall (fun e => _vector e <> []) (_edges self) ->
  exists cm : matrix,
    _initialize_connection_matrix hypot self
      (length (_vertices self)) (length (_edges self)) = Ok cm /\
    dims cm (length (_vertices self)) (length (_edges self)) /\
    forall (v e : nat) (edge : Reach),
      (v < length (_vertices self))%nat -> _edges self !! e = Some edge ->
      entry cm v e =
        Some match bound_ends hypot self edge with
             | Some (s, t) =>
                 if decide (Z.of_nat v = t) then 2
                 else if decide (Z.of_nat v = s) then 1 else 0
             | None => 0
             end.
Proof. exact (connection_matrix_tags self). Qed.

(** X2.  [connect] raises nothing but [IndexError] and the no-outlet
    [ValueError]: the first exactly when some reach holds no point, the
    second when every reach holds a point and no vertex is flagged as
    outlet.  Whenever it raises, the object is as it was before the call, so
    the tables stored by an earlier call are kept. *)
Theorem connect_raises (self self' : Catchment) (e : exn) :
  connect hypot self = (Raise e, self') ->
  self' = self /\
  ((e = IndexError /\ Exists (fun r => _vector r = []) (_edges self)) \/
   (e = ValueError "No 'out' node found in confluences." /\
    Forall (fun r => _vector r <> []) (_edges self) /\
    outlet_count (_vertices self) = O)).
Proof.
  rewrite connect_unfold.
  destruct (connection_loop hypot self (_edges self) 0 _) as [cm|e0] eqn:Hcm.
  - pose proof (connection_loop_Ok_nonempty hypot _ _ _ _ _ Hcm) as Hne.
    pose proof (out_node_loop_spec (_vertices self) 0) as Hout.
    destruct (out_node_loop (_vertices self) 0) as [idx|] eqn:Hidx.
    + destruct (incidence_loop_spec hypot self (length (_edges self)) (_edges self) 0
                  (np_full _ _ (_endSentinel self)) (np_full _ _ (_endSentinel self))
                  (dims_np_full _ _ _) (dims_np_full _ _ _) ltac:(lia) ltac:(lia) Hne)
        as (ds & us & -> & _).
      discriminate.
    + intros [= <- <-]. split; [reflexivity|]. right. auto.
  - intros [= <- <-]. split; [reflexivity|]. left.
    split; [eapply connection_loop_Raise; eauto|].
    destruct (reaches_points_or_empty (_edges self)) as [Hne|Hex]; [|exact Hex].
    destruct (connection_loop_completes hypot self (length (_edges self)) (_edges self) 0
                (np_zeros _ _) (dims_np_full _ _ _) ltac:(lia) ltac:(lia) Hne)
      as (cm & Hcm' & _).
    congruence.
Qed.

(** X3.  When [connect] returns, each table has one row per vertex and one
    column per edge, the object stores the very tables returned, and the
    stored outlet index is the position of a vertex flagged as outlet. *)
Theorem connect_result_stored (self self' : Catchment) (ds us : matrix) :
  connect hypot self = (Ok (ds, us), self') ->
  dims ds (length (_vertices self)) (length (_edges self)) /\
  dims us (length (_vertices self)) (length (_edges self)) /\
  _incidenceMatrixDS self' = ds /\ _incidenceMatrixUS self' = us /\
  exists (i : nat) (v : Vertex),
    _out_node_index self' = Z.of_nat i /\
    _vertices self' !! i = Some v /\ is_outlet v = true.
Proof.
  intros Hc.
  destruct (connect_Ok_inv hypot _ _ _ _ Hc) as [Hne [idx Hidx]].
  destruct (connect_with_outlet hypot self idx Hne Hidx) as (ds' & us' & Hc' & Hds & Hus & _).
  rewrite Hc in Hc'. injection Hc' as -> -> ->. simpl.
  split_and!; auto.
  pose proof (out_node_loop_spec (_vertices self) 0) as Hout. rewrite Hidx in Hout.
  destruct Hout as (i & v & -> & Hi & Hv & _). exists i, v. auto.
Qed.

(** X4.  The two tables that [connect] returns mirror each other: the
    downstream table leads from vertex [v] along edge [e] to vertex [w]
    exactly when the upstream table leads from [w] along [e] to [v]. *)
Theorem connect_tables_mirror (self self' : Catchment) (ds us : matrix) :
  _endSentinel self = -1 ->
  connect hypot self = (Ok (ds, us), self') ->
  forall v w e : nat,
    entry ds v e = Some (Z.of_nat w) <-> entry us w e = Some (Z.of_nat v).
Proof.
  intros Hsent Hc v w e.
  destruct (connect_Ok_tables hypot _ _ _ _ Hc) as (Hds & Hus & H).
  rewrite Hsent in H.
  split; intros Hw.
  - destruct (entry_in_dims _ _ _ _ _ _ Hds Hw) as [Hv He].
    destruct (lookup_lt_is_Some_2 (_edges self) e He) as [edge Hedge].
    destruct (H v e edge Hv Hedge) as [Hd _]. rewrite Hw in Hd. injection Hd as Hd.
    destruct (bound_ends hypot self edge) as [[s t]|] eqn:Hb; [|lia].
    destruct (bound_ends_in_range _ _ _ _ _ Hb) as [Hs Ht].
    destruct (decide (Z.of_nat v = s)) as [Hvs|]; [|lia].
    destruct (H w e edge ltac:(lia) Hedge) as [_ Hu]. rewrite Hu, Hb.
    rewrite decide_True by lia. f_equal. lia.
  - destruct (entry_in_dims _ _ _ _ _ _ Hus Hw) as [Hv He].
    destruct (lookup_lt_is_Some_2 (_edges self) e He) as [edge Hedge].
    destruct (H w e edge Hv Hedge) as [_ Hu]. rewrite Hw in Hu. injection Hu as Hu.
    destruct (bound_ends hypot self edge) as [[s t]|] eqn:Hb; [|lia].
    destruct (bound_ends_in_range _ _ _ _ _ Hb) as [Hs Ht].
    destruct (decide (Z.of_nat w = t)) as [Hwt|]; [|lia].
    destruct (H v e edge ltac:(lia) Hedge) as [Hd _]. rewrite Hd, Hb.
    rewrite decide_True by lia. f_equal. lia.
Qed.

(** X5.  In the tables that [connect] returns an edge appears at most once:
    its column holds at most one entry other than the sentinel in each
    table, and none at all when one of its ends is matched to no vertex. *)
Theorem connect_edge_column (self self' : Catchment) (ds us : matrix) :
  _endSentinel self = -1 ->
  connect hypot self = (Ok (ds, us), self') ->
  forall (e : nat) (edge : Reach),
    _edges self !! e = Some edge ->
    (bound_ends hypot self edge = None ->
     forall v : nat, (v < length (_vertices self))%nat ->
       entry ds v e = Some (-1) /\ entry us v e = Some (-1)) /\
    (forall (v v' : nat) (w w' : Z),
        entry ds v e = Some w -> entry ds v' e = Some w' ->
        w <> -1 -> w' <> -1 -> v = v' /\ w = w') /\
    (forall (v v' : nat) (w w' : Z),
        entry us v e = Some w -> entry us v' e = Some w' ->
        w <> -1 -> w' <> -1 -> v = v' /\ w = w').
Proof.
  intros Hsent Hc e edge Hedge.
  destruct (connect_Ok_tables hypot _ _ _ _ Hc) as (Hds & Hus & H).
  rewrite Hsent in H.
  split_and!.
  - intros Hb v Hv. destruct (H v e edge Hv Hedge) as [-> ->]. now rewrite Hb.
  - intros v v' w w' Hw Hw' Hn Hn'.
    destruct (entry_in_dims _ _ _ _ _ _ Hds Hw) as [Hv _].
    destruct (entry_in_dims _ _ _ _ _ _ Hds Hw') as [Hv' _].
    destruct (H v e edge Hv Hedge) as [Hd _]. rewrite Hw in Hd. injection Hd as Hd.
    destruct (H v' e edge Hv' Hedge) as [Hd' _]. rewrite Hw' in Hd'. injection Hd' as Hd'.
    destruct (bound_ends hypot self edge) as [[s t]|]; [|lia].
    destruct (decide (Z.of_nat v = s)); [|lia].
    destruct (decide (Z.of_nat v' = s)); [|lia]. lia.
  - intros v v' w w' Hw Hw' Hn Hn'.
    destruct (entry_in_dims _ _ _ _ _ _ Hus Hw) as [Hv _].
    destruct (entry_in_dims _ _ _ _ _ _ Hus Hw') as [Hv' _].
    destruct (H v e edge Hv Hedge) as [_ Hu]. rewrite Hw in Hu. injection Hu as Hu.
    destruct (H v' e edge Hv' Hedge) as [_ Hu']. rewrite Hw' in Hu'. injection Hu' as Hu'.
    destruct (bound_ends hypot self edge) as [[s t]|]; [|lia].
    destruct (decide (Z.of_nat v = t)); [|lia].
    destruct (decide (Z.of_nat v' = t)); [|lia]. lia.
Qed.

(** The loop of [_find_vertex_by_coordinates] returns [-1] or a position in
    the list it scans. *)
Lemma by_coordinates_loop_range (coords : float * float) (tol : float)
    (vs : list Vertex) (k : Z) :
  let r := by_coordinates_loop hypot coords tol vs k in
  r = -1 \/ k <= r < k + Z.of_nat (length vs).
Proof.
  destruct (by_coordinates_loop_spec hypot coords tol vs k)
    as [[Hr _]|(i & d & Hr & Hi & _)]; [now left|right].
  simpl. rewrite Hr. apply lookup_lt_Some in Hi.
  unfold distances in Hi. rewrite length_map in Hi. lia.
Qed.

(** X6.  For every query and tolerance, NaN and infinities included, both
    lookups return [-1] or the index of a vertex of the list: never another
    negative number, never an index past the end. *)
Theorem lookups_in_range (self : Catchment) (node : Node) (coords : float * float)
    (tol : float) :
  (_find_closest_vertex hypot self node tol = -1 \/
   0 <= _find_closest_vertex hypot self node tol < Z.of_nat (length (_vertices self))) /\
  (_find_vertex_by_coordinates hypot self coords tol = -1 \/
   0 <= _find_vertex_by_coordinates hypot self coords tol
     < Z.of_nat (length (_vertices self))).
Proof.
  split.
  - apply find_closest_vertex_in_range.
  - apply (by_coordinates_loop_range coords tol (_vertices self) 0).
Qed.

End ConnectMore.

(** ** The breadth-first searches of [_build_incidence_matrices] *)

Section SearchFacts.

Variable hypot : float -> float -> float.

Lemma us_edge_loop_search (self : Catchment) (cm : matrix) (c : Z) (idxs : list Z) :
  forall (colour tbl : matrix) (queue : list (Z * Z)),
    us_edge_loop hypot self cm c idxs colour tbl queue =
    search_edge_loop hypot 1 getEnd self cm c idxs colour tbl queue.
Proof.
  induction idxs as [|e rest IH]; intros colour tbl queue; simpl; [reflexivity|].
  destruct (np_get cm c e) as [x|]; simpl; [|reflexivity].
  destruct (negb (x =? 1)); [apply IH|].
  destruct (np_get colour c e) as [y|]; simpl; [|reflexivity].
  destruct (negb (y =? 0)); [apply IH|].
  destruct (np_set colour c e 1) as [colour1|]; simpl; [|reflexivity].
  destruct (list_get (_edges self) e) as [edge|]; simpl; [|reflexivity].
  destruct (getEnd edge) as [node|]; simpl; [|reflexivity].
  destruct (_ =? -1); [apply IH|].
  destruct (np_set tbl c e _) as [tbl1|]; simpl; [|reflexivity].
  apply IH.
Qed.

Lemma ds_edge_loop_search (self : Catchment) (cm : matrix) (c : Z) (idxs : list Z) :
  forall (colour tbl : matrix) (queue : list (Z * Z)),
    ds_edge_loop hypot self cm c idxs colour tbl queue =
    search_edge_loop hypot 2 getStart self cm c idxs colour tbl queue.
Proof.
  induction idxs as [|e rest IH]; intros colour tbl queue; simpl; [reflexivity|].
  destruct (np_get cm c e) as [x|]; simpl; [|reflexivity].
  destruct (negb (x =? 2)); [apply IH|].
  destruct (np_get colour c e) as [y|]; simpl; [|reflexivity].
  destruct (negb (y =? 0)); [apply IH|].
  destruct (np_set colour c e 1) as [colour1|]; simpl; [|reflexivity].
  destruct (list_get (_edges self) e) as [edge|]; simpl; [|reflexivity].
  destruct (getStart edge) as [node|]; simpl; [|reflexivity].
  destruct (_ =? -1); [apply IH|].
  destruct (np_set tbl c e _) as [tbl1|]; simpl; [|reflexivity].
  apply IH.
Qed.

Lemma us_search_search (bound : nat) (self : Catchment) (cm : matrix) (ne : nat) :
  forall (queue : list (Z * Z)) (colour tbl : matrix),
    us_search hypot bound self cm ne queue colour tbl =
    search hypot 1 getEnd bound self cm ne queue colour tbl.
Proof. intros queue colour tbl. reflexivity. Qed.

Lemma ds_search_search (bound : nat) (self : Catchment) (cm : matrix) (ne : nat) :
  forall (queue : list (Z * Z)) (colour tbl : matrix),
    ds_search hypot bound self cm ne queue colour tbl =
    search hypot 2 getStart bound self cm ne queue colour tbl.
Proof. intros queue colour tbl. reflexivity. Qed.

(** *** Counting the cells that are not yet coloured *)

Lemma zero_cells_np_zeros (rows cols : nat) :
  zero_cells (np_zeros rows cols) = (rows * cols)%nat.
Proof.
  unfold zero_cells, np_zeros, np_full.
  assert (Hrow : length (List.filter (fun w => w =? 0) (replicate cols 0)) = cols).
  { induction cols as [|n IH]; simpl; [reflexivity|]. now rewrite IH. }
  induction rows as [|n IH]; simpl; [reflexivity|].
  rewrite IH, Hrow. reflexivity.
Qed.

Lemma filter_zero_insert (row : list Z) :
  forall (j : nat) (x : Z),
    row !! j = Some 0 -> x <> 0 ->
    S (length (List.filter (fun w => w =? 0) (<[j := x]> row))) =
    length (List.filter (fun w => w =? 0) row).
Proof.
  induction row as [|y row IH]; intros [|j] x Hj Hx; simpl in *; try discriminate.
  - injection Hj as ->. simpl.
    destruct (x =? 0) eqn:E; [apply Z.eqb_eq in E; lia|reflexivity].
  - destruct (y =? 0); simpl; rewrite <- (IH j x Hj Hx); reflexivity.
Qed.

Lemma sum_list_insert (f : list Z -> nat) (m : matrix) :
  forall (i : nat) (row row' : list Z),
    m !! i = Some row ->
    (sum_list (map f (<[i := row']> m)) + f row = sum_list (map f m) + f row')%nat.
Proof.
  induction m as [|r m IH]; intros [|i] row row' Hi; simpl in *; try discriminate.
  - injection Hi as ->. lia.
  - specialize (IH i row row' Hi). lia.
Qed.

Lemma np_get_in_range (m : matrix) (rows cols : nat) (i j : Z) :
  dims m rows cols -> 0 <= i < Z.of_nat rows -> 0 <= j < Z.of_nat cols ->
  exists x, np_get m i j = Ok x /\ entry m (Z.to_nat i) (Z.to_nat j) = Some x.
Proof.
  intros Hd Hi Hj. pose proof Hd as [Hlen _]. unfold np_get, entry.
  destruct (list_get_in_range m i ltac:(lia)) as (row & -> & Hrow). simpl.
  rewrite Hrow. simpl.
  pose proof (dims_row _ _ _ _ _ Hd Hrow) as Hrl.
  destruct (list_get_in_range row j ltac:(lia)) as (x & -> & Hx). eauto.
Qed.

(** Colouring a cell that was 0 leaves one zero cell less. *)
Lemma np_set_colour (colour : matrix) (rows cols : nat) (i j : Z) :
  dims colour rows cols -> 0 <= i < Z.of_nat rows -> 0 <= j < Z.of_nat cols ->
  entry colour (Z.to_nat i) (Z.to_nat j) = Some 0 ->
  exists colour',
    np_set colour i j 1 = Ok colour' /\ dims colour' rows cols /\
    S (zero_cells colour') = zero_cells colour.
Proof.
  intros Hd Hi Hj H0. pose proof Hd as [Hlen Hrows]. unfold np_set.
  rewrite np_index_in_range by lia. simpl.
  destruct (list_get_in_range colour i ltac:(lia)) as (row & -> & Hrow). simpl.
  pose proof (dims_row _ _ _ _ _ Hd Hrow) as Hrl.
  rewrite np_index_in_range by lia. simpl.
  eexists. split; [reflexivity|]. split.
  - split; [now rewrite length_insert|].
    apply Forall_insert; [assumption|]. now rewrite length_insert.
  - unfold entry in H0. rewrite Hrow in H0. simpl in H0.
    unfold zero_cells.
    pose proof (sum_list_insert (fun row => length (List.filter (fun w => w =? 0) row)) colour
                  (Z.to_nat i) row (<[Z.to_nat j := 1]> row) Hrow) as Hsum.
    simpl in Hsum.
    pose proof (filter_zero_insert row (Z.to_nat j) 1 H0 ltac:(lia)) as Hf.
    lia.
Qed.

(** *** One search *)

Section OneSearch.

Variable tag : Z.
Variable far_end : Reach -> result Node.
Hypothesis far_end_Ok :
  forall edge : Reach, _vector edge <> [] -> exists node, far_end edge = Ok node.

Variable self : Catchment.
Variable cm : matrix.

Abbreviation nv := (length (_vertices self)).
Abbreviation ne := (length (_edges self)).

Hypothesis edges_hold_points : Forall (fun e => _vector e <> []) (_edges self).
Hypothesis cm_dims : dims cm nv ne.

Abbreviation in_queue_range :=
  (Forall (fun q : Z * Z => 0 <= q.1 < Z.of_nat nv)).

(** One pass over the edges at a vertex: no exception, the shapes are kept,
    every vertex put in the queue is a vertex of the graph, each of them
    is paid for by a cell coloured for the first time, and the table is
    only written where the connection matrix holds the tag. *)
Lemma search_edge_loop_spec (c : Z) (tbl0 : matrix) (idxs : list Z) :
  0 <= c < Z.of_nat nv ->
  Forall (fun e => 0 <= e < Z.of_nat ne) idxs ->
  forall (colour tbl : matrix) (queue : list (Z * Z)),
    dims colour nv ne -> dims tbl nv ne -> in_queue_range queue ->
    (forall v e : nat,
        search_entry hypot tag far_end self cm (entry tbl0 v e) (entry tbl v e) v e) ->
    exists (colour' tbl' : matrix) (queue' : list (Z * Z)),
      search_edge_loop hypot tag far_end self cm c idxs colour tbl queue =
        Ok (colour', tbl', queue') /\
      dims colour' nv ne /\ dims tbl' nv ne /\ in_queue_range queue' /\
      (zero_cells colour' + length queue' <= zero_cells colour + length queue)%nat /\
      (forall v e : nat,
          search_entry hypot tag far_end self cm (entry tbl0 v e) (entry tbl' v e) v e).
Proof.
  intros Hc Hidxs.
  induction Hidxs as [|e rest He Hrest IH]; intros colour tbl queue Hcol Htbl Hq Hinv.
  - simpl. exists colour, tbl, queue. split_and!; auto.
  - simpl.
    destruct (np_get_in_range cm _ _ c e cm_dims Hc He) as (x & -> & Hx). simpl.
    destruct (negb (x =? tag)) eqn:Ex; [now apply IH|].
    apply negb_false_iff, Z.eqb_eq in Ex. subst x.
    destruct (np_get_in_range colour _ _ c e Hcol Hc He) as (y & -> & Hy). simpl.
    destruct (negb (y =? 0)) eqn:Ey; [now apply IH|].
    apply negb_false_iff, Z.eqb_eq in Ey. subst y.
    destruct (np_set_colour colour _ _ c e Hcol Hc He Hy) as (colour1 & -> & Hcol1 & Hz).
    simpl.
    destruct (list_get_in_range (_edges self) e He) as (edge & -> & Hedge). simpl.
    assert (Hpts : _vector edge <> []).
    { rewrite Forall_lookup in edges_hold_points.
      exact (edges_hold_points _ _ Hedge). }
    destruct (far_end_Ok edge Hpts) as (node & Hnode). rewrite Hnode. simpl.
    pose proof (by_coordinates_loop_range hypot (coordinates node)
                  _find_vertex_by_coordinates_tol (_vertices self) 0) as Hr.
    simpl in Hr.
    change (by_coordinates_loop hypot (coordinates node) _find_vertex_by_coordinates_tol
              (_vertices self) 0)
      with (_find_vertex_by_coordinates hypot self (coordinates node)
              _find_vertex_by_coordinates_tol) in Hr.
    set (idx := _find_vertex_by_coordinates hypot self (coordinates node)
                  _find_vertex_by_coordinates_tol) in *.
    destruct (idx =? -1) eqn:Eidx.
    + destruct (IH colour1 tbl queue Hcol1 Htbl Hq Hinv)
        as (colour' & tbl' & queue' & -> & H1 & H2 & H3 & H4 & H5).
      exists colour', tbl', queue'. split_and!; auto. lia.
    + apply Z.eqb_neq in Eidx.
      destruct Hr as [Hr|Hr]; [contradiction|].
      destruct (np_set_in_range tbl _ _ c e idx Htbl Hc He) as (tbl1 & -> & Htbl1 & Hent).
      simpl.
      destruct (IH colour1 tbl1 (queue ++ [(idx, e)]) Hcol1 Htbl1)
        as (colour' & tbl' & queue' & -> & H1 & H2 & H3 & H4 & H5).
      * apply Forall_app. split; [assumption|]. constructor; [simpl; lia|constructor].
      * intros v e'. rewrite Hent.
        destruct (decide (v = Z.to_nat c /\ e' = Z.to_nat e)) as [[-> ->]|_];
          [|apply Hinv].
        right. split; [exact Hx|]. exists edge, node. split_and!; auto; lia.
      * exists colour', tbl', queue'. split_and!; auto.
        rewrite length_app in H4. simpl in H4. lia.
Qed.

(** The queue empties within as many iterations as there are cells still to
    colour and vertices waiting. *)
Lemma search_spec (tbl0 : matrix) (bound : nat) :
  forall (queue : list (Z * Z)) (colour tbl : matrix),
    dims colour nv ne -> dims tbl nv ne -> in_queue_range queue ->
    (forall v e : nat,
        search_entry hypot tag far_end self cm (entry tbl0 v e) (entry tbl v e) v e) ->
    (zero_cells colour + length queue <= bound)%nat ->
    exists tbl' : matrix,
      search hypot tag far_end bound self cm ne queue colour tbl = Ok (Some tbl') /\
      dims tbl' nv ne /\
      (forall v e : nat,
          search_entry hypot tag far_end self cm (entry tbl0 v e) (entry tbl' v e) v e).
Proof.
  induction bound as [|bound IH]; intros [|[c inc] queue] colour tbl Hcol Htbl Hq Hinv Hb;
    simpl in *; try (exists tbl; split_and!; auto; fail); try lia.
  apply Forall_cons in Hq as [Hc Hq]. simpl in Hc.
  destruct (search_edge_loop_spec c tbl0 (seqZ 0 (Z.of_nat ne)) Hc) with
    (colour := colour) (tbl := tbl) (queue := queue)
    as (colour' & tbl' & queue' & -> & H1 & H2 & H3 & H4 & H5); auto.
  { apply Forall_forall. intros e He. apply elem_of_seqZ in He. lia. }
  simpl. apply IH; auto. lia.
Qed.

End OneSearch.

(** The two searches of [_build_incidence_matrices] run to the end. *)
Lemma build_incidence_matrices_completes_aux (self : Catchment)
    (cm ds0 us0 : matrix) (bound : nat) :
  let nv := length (_vertices self) in
  let ne := length (_edges self) in
  Forall (fun e => _vector e <> []) (_edges self) ->
  dims cm nv ne -> dims ds0 nv ne -> dims us0 nv ne ->
  0 <= _out_node_index self < Z.of_nat nv ->
  (nv * ne + 1 <= bound)%nat ->
  exists ds us : matrix,
    _build_incidence_matrices hypot bound self cm ds0 us0 nv ne = Ok (Some (ds, us)) /\
    dims ds nv ne /\ dims us nv ne /\
    (forall v e : nat,
        search_entry hypot 2 getStart self cm (entry ds0 v e) (entry ds v e) v e) /\
    (forall v e : nat,
        search_entry hypot 1 getEnd self cm (entry us0 v e) (entry us v e) v e).
Proof.
  intros nv ne Hne Hcm Hds Hus Hout Hbound.
  assert (Hend : forall edge : Reach,
             _vector edge <> [] -> exists node, getEnd edge = Ok node).
  { intros edge H. destruct (getPoints_nonempty edge H) as (a & b & _ & Hb). eauto. }
  assert (Hstart : forall edge : Reach,
             _vector edge <> [] -> exists node, getStart edge = Ok node).
  { intros edge H. destruct (getPoints_nonempty edge H) as (a & b & Ha & _). eauto. }
  assert (Hq : Forall (fun q : Z * Z => 0 <= q.1 < Z.of_nat nv)
                 [(_out_node_index self, -1)]).
  { constructor; [simpl; lia|constructor]. }
  assert (Hm : (zero_cells (np_zeros nv ne) + length [(_out_node_index self, (-1)%Z)]
                <= bound)%nat).
  { rewrite zero_cells_np_zeros. simpl. lia. }
  unfold _build_incidence_matrices. fold nv ne.
  rewrite us_search_search.
  destruct (search_spec 1 getEnd Hend self cm Hne Hcm us0 bound
              [(_out_node_index self, -1)] (np_zeros nv ne) us0
              (dims_np_full _ _ _) Hus Hq (fun v e => or_introl eq_refl) Hm)
    as (us & Hsearch & Hus' & Husent).
  fold ne in Hsearch. rewrite Hsearch. simpl.
  rewrite ds_search_search.
  destruct (search_spec 2 getStart Hstart self cm Hne Hcm ds0 bound
              [(_out_node_index self, -1)] (np_zeros nv ne) ds0
              (dims_np_full _ _ _) Hds Hq (fun v e => or_introl eq_refl) Hm)
    as (ds & Hsearch2 & Hds' & Hdsent).
  fold ne in Hsearch2. rewrite Hsearch2. simpl.
  exists ds, us. split_and!; auto.
Qed.

(** X7.  [_build_incidence_matrices] does a bounded amount of work.  On an
    object whose reaches all hold a point and whose outlet index is a
    vertex, with a connection matrix and two tables of one row per vertex
    and one column per edge, both [while] loops end within
    [vertices * edges + 1] iterations each and nothing is raised; the shapes
    are kept, and an entry of either table is left as it was unless the
    connection matrix holds the tag of the search there (2 for the
    downstream table, 1 for the upstream one), in which case it may hold
    the vertex found, within the re-lookup tolerance, at the other end of
    the edge. *)
Theorem build_incidence_matrices_completes (self : Catchment)
    (cm ds0 us0 : matrix) (bound : nat) :
  let nv := length (_vertices self) in
  let ne := length (_edges self) in
  Forall (fun e => _vector e <> []) (_edges self) ->
  dims cm nv ne -> dims ds0 nv ne -> dims us0 nv ne ->
  0 <= _out_node_index self < Z.of_nat nv ->
  (nv * ne + 1 <= bound)%nat ->
  exists ds us : matrix,
    _build_incidence_matrices hypot bound self cm ds0 us0 nv ne = Ok (Some (ds, us)) /\
    dims ds nv ne /\ dims us nv ne /\
    (forall v e : nat,
        search_entry hypot 2 getStart self cm (entry ds0 v e) (entry ds v e) v e) /\
    (forall v e : nat,
        search_entry hypot 1 getEnd self cm (entry us0 v e) (entry us v e) v e).
Proof. exact (build_incidence_matrices_completes_aux self cm ds0 us0 bound). Qed.

(** X8.  The direction of the tables of [_build_incidence_matrices], run on
    the connection matrix of [_initialize_connection_matrix] with tables
    filled with [-1]: an entry other than [-1] of its downstream table sits
    in the row of the vertex matched to the END of the edge, and an entry of
    its upstream table in the row of the vertex matched to the START of the
    edge (and not to its end), the opposite of the tables of [connect]; each
    such entry is the index of a vertex. *)
Theorem build_incidence_matrices_direction (self : Catchment) (bound : nat) :
  let nv := length (_vertices self) in
  let ne := length (_edges self) in
  Forall (fun e => _vector e <> []) (_edges self) ->
  0 <= _out_node_index self < Z.of_nat nv ->
  (nv * ne + 1 <= bound)%nat ->
  exists cm ds us : matrix,
    _initialize_connection_matrix hypot self nv ne = Ok cm /\
    _build_incidence_matrices hypot bound self cm
      (np_full nv ne (-1)) (np_full nv ne (-1)) nv ne = Ok (Some (ds, us)) /\
    (forall (v e : nat) (w : Z),
        entry ds v e = Some w -> w <> -1 ->
        0 <= w < Z.of_nat nv /\
        exists (edge : Reach) (s : Z),
          _edges self !! e = Some edge /\
          bound_ends hypot self edge = Some (s, Z.of_nat v)) /\
    (forall (v e : nat) (w : Z),
        entry us v e = Some w -> w <> -1 ->
        0 <= w < Z.of_nat nv /\
        exists (edge : Reach) (t : Z),
          _edges self !! e = Some edge /\
          bound_ends hypot self edge = Some (Z.of_nat v, t) /\ t <> Z.of_nat v).
Proof.
  intros nv ne Hne Hout Hbound.
  destruct (connection_matrix_tags hypot self Hne) as (cm & Hcm & Hd & Htags).
  destruct (build_incidence_matrices_completes_aux self cm
              (np_full nv ne (-1)) (np_full nv ne (-1)) bound Hne Hd
              (dims_np_full _ _ _) (dims_np_full _ _ _) Hout Hbound)
    as (ds & us & Hb & Hds & Hus & Hdsent & Husent).
  exists cm, ds, us. split_and!; auto.
  - intros v e w Hw Hn.
    destruct (entry_in_dims _ _ _ _ _ _ Hds Hw) as [Hv He].
    destruct (Hdsent v e) as [Heq|(Htag & edge & node & Hedge & _ & Hafter & Hrange)].
    + rewrite Hw, (entry_np_full nv ne (-1) v e Hv He) in Heq. congruence.
    + rewrite Hw in Hafter. injection Hafter as ->. split; [exact Hrange|].
      rewrite (Htags v e edge Hv Hedge) in Htag.
      destruct (bound_ends hypot self edge) as [[s t]|] eqn:Hbe; [|discriminate].
      destruct (decide (Z.of_nat v = t)) as [<-|]; [exists edge, s; auto|].
      destruct (decide (Z.of_nat v = s)); discriminate.
  - intros v e w Hw Hn.
    destruct (entry_in_dims _ _ _ _ _ _ Hus Hw) as [Hv He].
    destruct (Husent v e) as [Heq|(Htag & edge & node & Hedge & _ & Hafter & Hrange)].
    + rewrite Hw, (entry_np_full nv ne (-1) v e Hv He) in Heq. congruence.
    + rewrite Hw in Hafter. injection Hafter as ->. split; [exact Hrange|].
      rewrite (Htags v e edge Hv Hedge) in Htag.
      destruct (bound_ends hypot self edge) as [[s t]|] eqn:Hbe; [|discriminate].
      destruct (decide (Z.of_nat v = t)) as [|Hvt]; [discriminate|].
      destruct (decide (Z.of_nat v = s)) as [<-|]; [|discriminate].
      exists edge, t. split_and!; auto.
Qed.

End SearchFacts.

(** ** Direction of a reach *)

Section ReachDirection.

Variable hypot : float -> float -> float.

Lemma last_reverse_head {A} (p : A) (rest : list A) : last (reverse (p :: rest)) = Some p.
Proof. rewrite reverse_cons. apply last_snoc. Qed.

Lemma head_reverse_last {A} (l : list A) : head (reverse l) = last l.
Proof.
  induction l as [|a l IH] using rev_ind; [reflexivity|].
  rewrite reverse_app, last_snoc. reflexivity.
Qed.

Lemma getStart_head (edge : Reach) :
  getStart edge = match head (_vector edge) with Some p => Ok p | None => Raise IndexError end.
Proof. unfold getStart, getPoint. simpl. now destruct (_vector edge). Qed.

Lemma getEnd_last (edge : Reach) :
  getEnd edge = match last (_vector edge) with Some p => Ok p | None => Raise IndexError end.
Proof. reflexivity. Qed.

(** X9.  The direction of a reach is the order of its points: [getPoint]
    raises [KeyError] for a direction other than ['us'] and ['ds'], and for
    a reach whose points are those of another in reverse order, [getStart]
    and [getEnd] are exchanged, and with them the two vertices that
    [connect] matches to the reach. *)
Theorem reach_reversed (edge reversed : Reach) (self : Catchment) :
  _vector reversed = reverse (_vector edge) ->
  (forall direction : string,
      direction <> "us"%string -> direction <> "ds"%string ->
      getPoint edge direction =
        Raise (KeyError "Node direction not properly defined: expected 'us' or 'ds'.")) /\
  getStart reversed = getEnd edge /\
  getEnd reversed = getStart edge /\
  bound_ends hypot self reversed =
    match bound_ends hypot self edge with
    | Some (s, t) => Some (t, s)
    | None => None
    end.
Proof.
  intros Hrev.
  assert (Hs : getStart reversed = getEnd edge).
  { rewrite getStart_head, getEnd_last, Hrev, head_reverse_last. reflexivity. }
  assert (He : getEnd reversed = getStart edge).
  { rewrite getStart_head, getEnd_last, Hrev.
    destruct (_vector edge) as [|p rest]; [reflexivity|].
    now rewrite last_reverse_head. }
  split_and!; auto.
  - intros direction Hus Hds. unfold getPoint.
    destruct (String.eqb_spec direction "us"); [contradiction|].
    destruct (String.eqb_spec direction "ds"); [contradiction|]. reflexivity.
  - unfold bound_ends. rewrite Hs, He.
    destruct (getStart edge) as [a|], (getEnd edge) as [b|]; try reflexivity.
    rewrite orb_comm. now destruct (_ || _).
Qed.

End ReachDirection.

(** ** Outcomes of [_getDsIndex] *)

Section GetDsIndexOutcome.

Variable down : Z -> result Z.
Variable getNode : Z -> result Vertex.
Variable traveller_endSentinel : Z.

(** X10.  Whatever the traveller, [_getDsIndex] never returns the index of a
    Confluence as such: a value it returns is the end sentinel or the index
    of a Basin.  A result or an exception reached within some number of
    nested calls is the same for every larger number. *)
Theorem getDsIndex_outcome (depth : nat) :
  forall (i : Z),
    (forall r : Z,
        _getDsIndex down getNode traveller_endSentinel depth i = Ok (Some r) ->
        ((exists b : Basin, getNode r = Ok (VBasin b)) \/ r = traveller_endSentinel) /\
        forall depth' : nat, (depth <= depth')%nat ->
          _getDsIndex down getNode traveller_endSentinel depth' i = Ok (Some r)) /\
    (forall e : exn,
        _getDsIndex down getNode traveller_endSentinel depth i = Raise e ->
        forall depth' : nat, (depth <= depth')%nat ->
          _getDsIndex down getNode traveller_endSentinel depth' i = Raise e).
Proof.
  induction depth as [|depth IH]; intros i; [split; intros ? H; discriminate|].
  split.
  - intros r H. simpl in H.
    destruct (down i) as [ds|] eqn:Hd; simpl in H; [|discriminate].
    destruct (getNode ds) as [[c|b]|] eqn:Hn; simpl in H; [| |discriminate].
    + destruct (isOut c) eqn:Hc.
      * injection H as <-. split; [now right|].
        intros [|depth'] Hle; [lia|]. simpl. rewrite Hd. simpl. rewrite Hn. simpl.
        now rewrite Hc.
      * destruct (proj1 (IH ds) r H) as [Hr Hstable]. split; [exact Hr|].
        intros [|depth'] Hle; [lia|]. simpl. rewrite Hd. simpl. rewrite Hn. simpl.
        rewrite Hc. apply Hstable. lia.
    + injection H as <-. split; [left; eauto|].
      intros [|depth'] Hle; [lia|]. simpl. rewrite Hd. simpl. now rewrite Hn.
  - intros e H [|depth'] Hle; [lia|]. simpl in *.
    destruct (down i) as [ds|] eqn:Hd; simpl in *; [|exact H].
    destruct (getNode ds) as [[c|b]|] eqn:Hn; simpl in *; [|discriminate|exact H].
    destruct (isOut c); [discriminate|].
    apply (proj2 (IH ds) e H). lia.
Qed.

End GetDsIndexOutcome.

(** ** Value blocks *)

Section ValueBlockFacts.

Variable float_str : float -> string.

Lemma string_length_append (s1 s2 : string) :
  String.length (s1 ++ s2) = (String.length s1 + String.length s2)%nat.
Proof. induction s1 as [|c s1 IH]; simpl; [reflexivity|now rewrite IH]. Qed.

Lemma spaces_length (n : nat) : String.length (spaces n) = n.
Proof. induction n as [|n IH]; simpl; [reflexivity|now rewrite IH]. Qed.

(** X11.  [_createValueBlock] returns exactly when the text of the value has
    at most 12 characters, and then the block is 12 characters wide: the
    text of a number preceded by spaces, the text of a string followed by
    spaces.  A longer string ends in the [ValueError] of the [except]
    clause, a longer number in a [TypeError]. *)
Theorem createValueBlock_width (value : block_value) :
  let text := py_str float_str value in
  let pad := spaces (12 - String.length text) in
  ((String.length text <= 12)%nat ->
   exists block : string,
     _createValueBlock float_str value = Block block /\
     String.length block = 12%nat /\
     block = match value with
             | BStr _ => (text ++ pad)%string
             | BInt _ | BFloat _ => (pad ++ text)%string
             end) /\
  ((12 < String.length text)%nat ->
   _createValueBlock float_str value =
     match value with
     | BStr _ => BlockValueError "cannot parse argument into a string"
     | BInt _ | BFloat _ => BlockTypeError
     end).
Proof.
  intros text pad. unfold _createValueBlock. fold text.
  split; intros H.
  - destruct (12 <? String.length text)%nat eqn:E; [apply Nat.ltb_lt in E; lia|].
    destruct value; eexists; (split; [reflexivity|]);
      unfold rjust, ljust; fold pad; (split; [|reflexivity]);
      rewrite string_length_append; unfold pad; rewrite spaces_length; lia.
  - destruct (12 <? String.length text)%nat eqn:E; [|apply Nat.ltb_ge in E; lia].
    now destruct value.
Qed.

End ValueBlockFacts.

(** ** The confluence layer: validation and building *)

Section ConfluenceLayerFacts.

Import FloatOrder.

Variable fields_and_geometries_valid : list Feature -> string -> result bool.
Variable capitalize : string -> string.
Variable name_of : pyval -> string.

Lemma eq_one_not_zero (value : pyval) :
  py_eq_one value = true -> py_eq_zero value = false.
Proof.
  destruct value as [|b|z|f|s]; simpl; try discriminate.
  - now intros ->.
  - intros H. apply Z.eqb_eq in H. now subst.
  - rewrite !FloatAxioms.eqb_spec. unfold SFeqb.
    destruct (SFcompare (Prim2SF f) (Prim2SF 1)) as [[]|] eqn:H1; try discriminate.
    intros _.
    destruct (SFcompare (Prim2SF f) (Prim2SF 0)) as [[]|] eqn:H0; try reflexivity.
    exfalso.
    pose proof (SFcompare_opp (Prim2SF f) (Prim2SF 1)) as Ho.
    rewrite H1 in Ho. simpl in Ho.
    pose proof (SFcompare_eq_trans _ _ _ Ho H0) as Hc.
    vm_compute in Hc. discriminate.
Qed.

Lemma eq_zero_not_one (value : pyval) :
  py_eq_zero value = true -> py_eq_one value = false.
Proof.
  intros H. destruct (py_eq_one value) eqn:H1; [|reflexivity].
  apply eq_one_not_zero in H1. congruence.
Qed.

Lemma eq_zero_falsy (value : pyval) :
  py_eq_zero value = true -> py_bool value = false.
Proof.
  destruct value as [|b|z|f|s]; simpl; try discriminate.
  - now destruct b.
  - now intros ->.
  - now intros ->.
Qed.

Lemma eq_one_truthy (value : pyval) :
  py_eq_one value = true -> py_bool value = true.
Proof.
  intros H. pose proof (eq_one_not_zero _ H) as H0.
  destruct value as [|b|z|f|s]; simpl in *; try discriminate; auto;
    now rewrite H0.
Qed.

Lemma filter_map_pred {A B : Type} (p : B -> bool) (g : A -> B) (l : list A) :
  length (List.filter p (map g l)) = length (List.filter (fun a => p (g a)) l).
Proof.
  induction l as [|a l IH]; simpl; [reflexivity|].
  destruct (p (g a)); simpl; now rewrite IH.
Qed.

Lemma filter_length_bound {A : Type} (p : A -> bool) (l : list A) :
  (length (List.filter p l) <= length l)%nat.
Proof.
  induction l as [|a l IH]; simpl; [lia|]. destruct (p a); simpl; lia.
Qed.

Lemma filter_length_all {A : Type} (p : A -> bool) (l : list A) :
  length (List.filter p l) = length l <-> Forall (fun a => p a = true) l.
Proof.
  induction l as [|a l IH]; simpl.
  - split; auto.
  - pose proof (filter_length_bound p l) as Hle.
    destruct (p a) eqn:Ha; simpl; split; intros H.
    + constructor; [exact Ha|]. apply IH. lia.
    + inversion H; subst. f_equal. now apply IH.
    + lia.
    + inversion H; subst. congruence.
Qed.

Lemma filter_length_none {A : Type} (p : A -> bool) (l : list A) :
  length (List.filter p l) = O <-> Forall (fun a => p a = false) l.
Proof.
  induction l as [|a l IH]; simpl.
  - split; auto.
  - destruct (p a) eqn:Ha; simpl; split; intros H.
    + lia.
    + inversion H; subst. congruence.
    + constructor; [exact Ha|]. now apply IH.
    + inversion H; subst. now apply IH.
Qed.

Lemma filter_length_one {A : Type} (p : A -> bool) (l : list A) :
  length (List.filter p l) = 1%nat ->
  exists l1 a l2,
    l = l1 ++ a :: l2 /\ p a = true /\
    Forall (fun b => p b = false) l1 /\ Forall (fun b => p b = false) l2.
Proof.
  induction l as [|a l IH]; simpl; [lia|].
  destruct (p a) eqn:Ha; simpl; intros H.
  - exists [], a, l. split_and!; auto. apply filter_length_none. lia.
  - destruct (IH H) as (l1 & b & l2 & -> & Hb & H1 & H2).
    exists (a :: l1), b, l2. split_and!; auto.
Qed.

Lemma filter_length_app {A : Type} (p : A -> bool) (l1 l2 : list A) :
  length (List.filter p (l1 ++ l2)) =
  (length (List.filter p l1) + length (List.filter p l2))%nat.
Proof. now rewrite List.filter_app, length_app. Qed.

(** The layers that [validate_confluences_out_field] accepts. *)
Lemma out_field_valid_split (layer : list Feature) (shapefile_name : string) :
  validate_confluences_out_field layer shapefile_name = true <->
  exists before outlet after,
    layer = before ++ outlet :: after /\
    py_eq_one (out_value outlet) = true /\
    Forall (fun f => py_eq_zero (out_value f) = true) (before ++ after).
Proof.
  unfold validate_confluences_out_field.
  change (fun f : Feature => dict_get (feature_record f) "out") with out_value.
  rewrite !filter_map_pred, length_map.
  set (one := fun f => py_eq_one (out_value f)).
  set (zero := fun f => py_eq_zero (out_value f)).
  split.
  - intros H.
    destruct (Z.of_nat (length (List.filter one layer)) =? 1) eqn:H1;
      simpl in H; [|destruct (negb _); discriminate].
    destruct (Z.of_nat (length (List.filter zero layer)) =? Z.of_nat (length layer) - 1)
      eqn:H0; simpl in H; [|discriminate].
    apply Z.eqb_eq in H1, H0.
    destruct (filter_length_one one layer ltac:(lia)) as (l1 & f & l2 & -> & Hf & Hl1 & Hl2).
    exists l1, f, l2. split_and!; auto.
    rewrite filter_length_app in H0. simpl in H0.
    assert (Hz : zero f = false) by (apply eq_one_not_zero; exact Hf).
    rewrite Hz in H0. rewrite length_app in H0. simpl in H0.
    pose proof (filter_length_bound zero l1). pose proof (filter_length_bound zero l2).
    apply Forall_app. split; apply (filter_length_all zero); lia.
  - intros (l1 & f & l2 & -> & Hf & Hall).
    apply Forall_app in Hall. destruct Hall as [Hl1 Hl2].
    assert (Hz : zero f = false) by (apply eq_one_not_zero; exact Hf).
    assert (Hn : forall l, Forall (fun g => py_eq_zero (out_value g) = true) l ->
                 length (List.filter one l) = O /\
                 length (List.filter zero l) = length l).
    { intros l Hl. split.
      - apply filter_length_none. eapply Forall_impl; [exact Hl|].
        intros g Hg. now apply eq_zero_not_one.
      - now apply filter_length_all. }
    destruct (Hn l1 Hl1) as [Ho1 Hz1]. destruct (Hn l2 Hl2) as [Ho2 Hz2].
    rewrite !filter_length_app. simpl.
    assert (Ho : one f = true) by exact Hf.
    rewrite Ho, Hz. simpl.
    rewrite Ho1, Ho2, Hz1, Hz2, length_app. simpl.
    replace (Z.of_nat (0 + S 0) =? 1) with true by (symmetry; apply Z.eqb_eq; lia).
    simpl.
    replace (_ =? _) with true by (symmetry; apply Z.eqb_eq; lia).
    reflexivity.
Qed.

(** X12. [validate_confluences_out_field] accepts a layer exactly when one
    record has an [out] value equal to 1 and the [out] value of every other
    record equals 0, whatever name it is given; a record without the field,
    or with [None] or a string in it, makes it fail; and on an accepted layer
    [bool(out)] is true for the one record and false for all others. *)
Theorem validate_confluences_out_field_exactly_one
    (layer : list Feature) (shapefile_name : string) :
  (validate_confluences_out_field layer shapefile_name = true <->
   exists before outlet after,
     layer = before ++ outlet :: after /\
     py_eq_one (out_value outlet) = true /\
     Forall (fun f => py_eq_zero (out_value f) = true) (before ++ after)) /\
  (Exists (fun f => match feature_record f "out" with
                    | None | Some PNone | Some (PStr _) => True
                    | _ => False
                    end) layer ->
   validate_confluences_out_field layer shapefile_name = false) /\
  (validate_confluences_out_field layer shapefile_name = true ->
   length (List.filter (fun f => py_bool (out_value f)) layer) = 1%nat).
Proof.
  split_and!.
  - apply out_field_valid_split.
  - intros Hex.
    destruct (validate_confluences_out_field layer shapefile_name) eqn:Hv; [|reflexivity].
    exfalso. apply out_field_valid_split in Hv.
    destruct Hv as (l1 & f & l2 & -> & Hf & Hall).
    apply Forall_app in Hall. destruct Hall as [Hl1 Hl2].
    assert (Hbad : forall g,
              match feature_record g "out" with
              | None | Some PNone | Some (PStr _) => True
              | _ => False
              end ->
              py_eq_one (out_value g) = false /\ py_eq_zero (out_value g) = false).
    { intros g. unfold out_value, dict_get.
      destruct (feature_record g "out") as [[]|]; simpl; tauto. }
    apply Exists_app in Hex. destruct Hex as [Hex|Hex].
    + apply Exists_exists in Hex. destruct Hex as (g & Hin & Hg).
      rewrite Forall_forall in Hl1. specialize (Hl1 g Hin).
      destruct (Hbad g Hg). congruence.
    + inversion Hex as [? ? Hg|? ? Hex']; subst.
      * destruct (Hbad f Hg). congruence.
      * apply Exists_exists in Hex'. destruct Hex' as (g & Hin & Hg).
        rewrite Forall_forall in Hl2. specialize (Hl2 g Hin).
        destruct (Hbad g Hg). congruence.
  - intros Hv. apply out_field_valid_split in Hv.
    destruct Hv as (l1 & f & l2 & -> & Hf & Hall).
    apply Forall_app in Hall. destruct Hall as [Hl1 Hl2].
    assert (Hn : forall l, Forall (fun g => py_eq_zero (out_value g) = true) l ->
                 length (List.filter (fun g => py_bool (out_value g)) l) = O).
    { intros l Hl. apply filter_length_none. eapply Forall_impl; [exact Hl|].
      intros g Hg. now apply eq_zero_falsy. }
    rewrite filter_length_app. simpl. rewrite (eq_one_truthy _ Hf). simpl.
    rewrite (Hn l1 Hl1), (Hn l2 Hl2). reflexivity.
Qed.

Lemma outlet_count_app (vs ws : list Vertex) :
  outlet_count (vs ++ ws) = (outlet_count vs + outlet_count ws)%nat.
Proof. unfold outlet_count. apply filter_length_app. Qed.

Lemma outlet_count_basins (bs : list Basin) : outlet_count (map VBasin bs) = O.
Proof. induction bs as [|b bs IH]; [reflexivity|exact IH]. Qed.

(** The vertex list built by [__init__] has the outlets of the confluence
    list. *)
Lemma init_outlet_count (cs : list Confluence) (basins : option (list Basin))
    (reaches : option (list Reach)) :
  outlet_count (_vertices (Catchment_init (Some cs) basins reaches)) =
  outlet_count (map VConfluence cs).
Proof.
  unfold Catchment_init. cbv zeta. cbn [_vertices].
  destruct cs as [|c cs], basins as [[|b bs]|]; try reflexivity.
  - rewrite app_nil_l. apply (outlet_count_basins (b :: bs)).
  - rewrite outlet_count_app, (outlet_count_basins (b :: bs)).
    rewrite app_nil_l. lia.
Qed.

Lemma confluence_loop_spec (features : list Feature) :
  forall acc cs,
    confluence_loop name_of features acc = Ok cs ->
    length cs = (length acc + length (List.filter has_geometry features))%nat /\
    outlet_count (map VConfluence cs) =
      (outlet_count (map VConfluence acc) +
       length (List.filter (fun f => has_geometry f && py_bool (out_value f)) features))%nat.
Proof.
  induction features as [|f rest IH]; intros acc cs H; simpl in H.
  - injection H as <-. simpl. lia.
  - cbn [List.filter].
    destruct (feature_geometry f) as [|[x0 y0] more] eqn:Hg.
    + assert (Hgeo : has_geometry f = false) by (unfold has_geometry; now rewrite Hg).
      rewrite Hgeo. simpl. now apply IH.
    + assert (Hgeo : has_geometry f = true) by (unfold has_geometry; now rewrite Hg).
      rewrite Hgeo. simpl.
      unfold dict_item in H. unfold out_value at 1, dict_get.
      destruct (feature_record f "id") as [id|]; simpl in H; [|discriminate].
      destruct (feature_record f "out") as [out|]; simpl in H; [|discriminate].
      apply IH in H. destruct H as [Hlen Hout].
      rewrite length_app in Hlen. simpl in Hlen.
      rewrite map_app, outlet_count_app in Hout.
      assert (Hone : outlet_count
                (map VConfluence [mkConfluence (mkNode (name_of id) x0 y0) (py_bool out)]) =
              if py_bool out then 1%nat else O).
      { unfold outlet_count. simpl. now destruct (py_bool out). }
      rewrite Hone in Hout.
      destruct (py_bool out); simpl in *; lia.
Qed.


Lemma builder_confluence_split (layer : list Feature) (cs : list Confluence) :
  Builder_confluence fields_and_geometries_valid capitalize name_of layer = Ok cs ->
  exists before outlet after,
    layer = before ++ outlet :: after /\
    py_eq_one (out_value outlet) = true /\
    Forall (fun f => py_eq_zero (out_value f) = true) (before ++ after) /\
    length cs = length (List.filter has_geometry layer) /\
    outlet_count (map VConfluence cs) = (if has_geometry outlet then 1 else 0)%nat.
Proof.
  unfold Builder_confluence, _validate_vector_layer. intros H.
  destruct (fields_and_geometries_valid layer "confluences") as [[|]|e]; simpl in H;
    try discriminate.
  rewrite andb_true_r in H.
  destruct (validate_confluences_out_field layer (capitalize "confluences")) eqn:Hv;
    simpl in H; [|discriminate].
  apply out_field_valid_split in Hv.
  destruct Hv as (l1 & f & l2 & -> & Hf & Hall).
  exists l1, f, l2. split_and!; auto.
  - apply confluence_loop_spec in H. simpl in H. tauto.
  - apply confluence_loop_spec in H. destruct H as [_ H]. simpl in H.
    change (outlet_count []) with O in H. rewrite H.
    apply Forall_app in Hall. destruct Hall as [Hl1 Hl2].
    assert (Hn : forall l, Forall (fun g => py_eq_zero (out_value g) = true) l ->
                 length (List.filter
                           (fun g => has_geometry g && py_bool (out_value g)) l) = O).
    { intros l Hl. apply filter_length_none. eapply Forall_impl; [exact Hl|].
      intros g Hg. simpl. rewrite (eq_zero_falsy _ Hg). apply andb_false_r. }
    rewrite filter_length_app. simpl. rewrite (eq_one_truthy _ Hf), andb_true_r.
    rewrite (Hn l1 Hl1). destruct (has_geometry f); simpl; rewrite (Hn l2 Hl2); reflexivity.
Qed.

(** X13. When [Builder.confluence] returns a list, the layer has exactly one
    record whose [out] equals 1, all others having [out] equal to 0; the
    list holds one Confluence for each feature with a geometry, and its
    number of outlets is 1 when the geometry of the flagged feature is not
    empty and 0 when it is, the feature being skipped with a warning. *)
Theorem builder_confluence_outlets (layer : list Feature) (cs : list Confluence) :
  Builder_confluence fields_and_geometries_valid capitalize name_of layer = Ok cs ->
  exists before outlet after,
    layer = before ++ outlet :: after /\
    py_eq_one (out_value outlet) = true /\
    Forall (fun f => py_eq_zero (out_value f) = true) (before ++ after) /\
    length cs = length (List.filter has_geometry layer) /\
    outlet_count (map VConfluence cs) = (if has_geometry outlet then 1 else 0)%nat.
Proof. apply builder_confluence_split. Qed.


Variable hypot : float -> float -> float.

(** X15. A catchment built from the list that [Builder.confluence] returns
    connects when every feature of the layer has a geometry and every reach
    holds a point; when the feature flagged as outlet has an empty geometry,
    the list has no outlet and [connect] raises the no-outlet [ValueError],
    although the layer passed its validation. *)
Theorem builder_confluence_connect (layer : list Feature) (cs : list Confluence)
    (basins : option (list Basin)) (reaches : option (list Reach)) :
  Builder_confluence fields_and_geometries_valid capitalize name_of layer = Ok cs ->
  Forall (fun e => _vector e <> []) (_edges (Catchment_init (Some cs) basins reaches)) ->
  (Forall (fun f => has_geometry f = true) layer ->
   exists ds us idx,
     fst (connect hypot (Catchment_init (Some cs) basins reaches)) = Ok (ds, us) /\
     _out_node_index (snd (connect hypot (Catchment_init (Some cs) basins reaches))) = idx /\
     exists c, cs !! Z.to_nat idx = Some c /\ isOut c = true /\ 0 <= idx) /\
  (Exists (fun f => py_eq_one (out_value f) = true /\ has_geometry f = false) layer ->
   connect hypot (Catchment_init (Some cs) basins reaches) =
     (Raise (ValueError "No 'out' node found in confluences."),
      Catchment_init (Some cs) basins reaches)).
Proof.
  intros Hb Hne.
  destruct (builder_confluence_split _ _ Hb) as (l1 & f & l2 & -> & Hf & Hall & Hlen & Hcount).
  pose proof (init_outlet_count cs basins reaches) as Hinit.
  pose proof (out_node_loop_spec (_vertices (Catchment_init (Some cs) basins reaches)) 0)
    as Hspec.
  split.
  - intros Hgeo.
    assert (Hgf : has_geometry f = true).
    { rewrite List.Forall_forall in Hgeo. apply Hgeo. apply in_or_app. right. now left. }
    rewrite Hgf in Hcount.
    destruct (out_node_loop (_vertices (Catchment_init (Some cs) basins reaches)) 0)
      as [idx|] eqn:Hloop; [|lia].
    destruct (connect_with_outlet hypot _ idx Hne Hloop) as (ds & us & Hc & _).
    exists ds, us, idx. rewrite Hc. simpl. split_and!; auto.
    destruct Hspec as (i & v & -> & Hi & Hv & _).
    assert (Hvs : _vertices (Catchment_init (Some cs) basins reaches) =
                  map VConfluence cs ++
                  match basins with Some bs => map VBasin bs | None => [] end).
    { unfold Catchment_init. simpl.
      destruct cs as [|c cs'], basins as [[|b bs]|]; simpl; try reflexivity;
        now rewrite ?app_nil_r. }
    rewrite Hvs in Hi.
    replace (Z.to_nat (0 + Z.of_nat i)) with i by lia.
    destruct (decide (i < length (map VConfluence cs))%nat) as [Hlt|Hge].
    + rewrite lookup_app_l in Hi by exact Hlt.
      rewrite list_lookup_fmap in Hi.
      destruct (cs !! i) as [c|] eqn:Hci; simpl in Hi; [|discriminate].
      injection Hi as <-. exists c. split_and!; auto. lia.
    + exfalso. rewrite lookup_app_r in Hi by lia.
      destruct basins as [bs|]; [|now rewrite lookup_nil in Hi].
      rewrite list_lookup_fmap in Hi.
      destruct (bs !! _) as [b|]; simpl in Hi; [|discriminate].
      injection Hi as <-. simpl in Hv. discriminate.
  - intros Hex.
    assert (Hgf : has_geometry f = false).
    { apply Forall_app in Hall. destruct Hall as [Hl1 Hl2].
      rewrite List.Forall_forall in Hl1, Hl2.
      apply List.Exists_exists in Hex. destruct Hex as (g & Hin & Hg1 & Hg).
      apply in_app_or in Hin. destruct Hin as [Hin|[->|Hin]].
      - specialize (Hl1 g Hin). apply eq_zero_not_one in Hl1. congruence.
      - exact Hg.
      - specialize (Hl2 g Hin). apply eq_zero_not_one in Hl2. congruence. }
    rewrite Hgf in Hcount.
    apply connect_no_outlet; [exact Hne|].
    destruct (out_node_loop (_vertices (Catchment_init (Some cs) basins reaches)) 0)
      as [idx|] eqn:Hloop; [|reflexivity].
    apply out_node_loop_Some_count in Hloop. lia.
Qed.

End ConfluenceLayerFacts.

(** ** Concrete runs of the further properties *)

Lemma initialize_connection_matrix_tags_witness :
  exists cm : matrix,
    _initialize_connection_matrix hypot_sqrt chain
      (length (_vertices chain)) (length (_edges chain)) = Ok cm /\
    dims cm (length (_vertices chain)) (length (_edges chain)) /\
    forall (v e : nat) (edge : Reach),
      (v < length (_vertices chain))%nat -> _edges chain !! e = Some edge ->
      entry cm v e =
        Some match bound_ends hypot_sqrt chain edge with
             | Some (s, t) =>
                 if decide (Z.of_nat v = t) then 2
                 else if decide (Z.of_nat v = s) then 1 else 0
             | None => 0
             end.
Proof.
  apply (initialize_connection_matrix_tags hypot_sqrt chain). edges_hold_points.
Defined.

Lemma connect_raises_witness :
  snd (connect hypot_sqrt empty_reach) = empty_reach /\
  ((IndexError = IndexError /\ Exists (fun r => _vector r = []) (_edges empty_reach)) \/
   (IndexError = ValueError "No 'out' node found in confluences." /\
    Forall (fun r => _vector r <> []) (_edges empty_reach) /\
    outlet_count (_vertices empty_reach) = O)).
Proof.
  apply (connect_raises hypot_sqrt empty_reach (snd (connect hypot_sqrt empty_reach))
           IndexError).
  vm_compute. reflexivity.
Defined.

Lemma connect_result_stored_witness :
  dims chain_ds (length (_vertices chain)) (length (_edges chain)) /\
  dims chain_us (length (_vertices chain)) (length (_edges chain)) /\
  _incidenceMatrixDS chain_connected = chain_ds /\
  _incidenceMatrixUS chain_connected = chain_us /\
  exists (i : nat) (v : Vertex),
    _out_node_index chain_connected = Z.of_nat i /\
    _vertices chain_connected !! i = Some v /\ is_outlet v = true.
Proof.
  apply (connect_result_stored hypot_sqrt chain chain_connected chain_ds chain_us).
  vm_compute. reflexivity.
Defined.

Lemma connect_tables_mirror_witness :
  _endSentinel chain = -1 /\
  (entry chain_ds 4 0 = Some (Z.of_nat 2) <-> entry chain_us 2 0 = Some (Z.of_nat 4)).
Proof.
  split; [reflexivity|].
  apply (connect_tables_mirror hypot_sqrt chain chain_connected chain_ds chain_us).
  - reflexivity.
  - vm_compute. reflexivity.
Defined.

Lemma connect_edge_column_witness :
  let edge := reach_along [node_at 10.0625 0; node_at 0.0625 0] in
  (bound_ends hypot_sqrt offset_edge edge = None ->
   forall v : nat, (v < length (_vertices offset_edge))%nat ->
     entry [[-1]; [-1]] v 0 = Some (-1) /\ entry [[-1]; [-1]] v 0 = Some (-1)) /\
  (forall (v v' : nat) (w w' : Z),
      entry [[-1]; [-1]] v 0 = Some w -> entry [[-1]; [-1]] v' 0 = Some w' ->
      w <> -1 -> w' <> -1 -> v = v' /\ w = w') /\
  (forall (v v' : nat) (w w' : Z),
      entry [[-1]; [-1]] v 0 = Some w -> entry [[-1]; [-1]] v' 0 = Some w' ->
      w <> -1 -> w' <> -1 -> v = v' /\ w = w').
Proof.
  apply (connect_edge_column hypot_sqrt offset_edge (snd (connect hypot_sqrt offset_edge))
           [[-1]; [-1]] [[-1]; [-1]]).
  - reflexivity.
  - vm_compute. reflexivity.
  - reflexivity.
Defined.

Lemma build_incidence_matrices_completes_witness :
  let cm := [[0; 0; 0; 2]; [0; 2; 1; 0]; [2; 1; 0; 0]; [0; 0; 2; 1]; [1; 0; 0; 0]] in
  let ds0 := np_full 5 4 (-1) in
  let us0 := np_full 5 4 (-1) in
  exists ds us : matrix,
    _build_incidence_matrices hypot_sqrt 21 chain_connected cm ds0 us0
      (length (_vertices chain_connected)) (length (_edges chain_connected)) =
      Ok (Some (ds, us)) /\
    dims ds (length (_vertices chain_connected)) (length (_edges chain_connected)) /\
    dims us (length (_vertices chain_connected)) (length (_edges chain_connected)) /\
    (forall v e : nat,
        search_entry hypot_sqrt 2 getStart chain_connected cm
          (entry ds0 v e) (entry ds v e) v e) /\
    (forall v e : nat,
        search_entry hypot_sqrt 1 getEnd chain_connected cm
          (entry us0 v e) (entry us v e) v e).
Proof.
  apply (build_incidence_matrices_completes hypot_sqrt chain_connected
           [[0; 0; 0; 2]; [0; 2; 1; 0]; [2; 1; 0; 0]; [0; 0; 2; 1]; [1; 0; 0; 0]]
           (np_full 5 4 (-1)) (np_full 5 4 (-1)) 21).
  - vm_compute. edges_hold_points.
  - vm_compute. split; [reflexivity|repeat constructor].
  - vm_compute. split; [reflexivity|repeat constructor].
  - vm_compute. split; [reflexivity|repeat constructor].
  - vm_compute. split; [discriminate|reflexivity].
  - vm_compute. lia.
Defined.

Lemma build_incidence_matrices_direction_witness :
  exists cm ds us : matrix,
    _initialize_connection_matrix hypot_sqrt chain_connected
      (length (_vertices chain_connected)) (length (_edges chain_connected)) = Ok cm /\
    _build_incidence_matrices hypot_sqrt 21 chain_connected cm
      (np_full (length (_vertices chain_connected)) (length (_edges chain_connected)) (-1))
      (np_full (length (_vertices chain_connected)) (length (_edges chain_connected)) (-1))
      (length (_vertices chain_connected)) (length (_edges chain_connected)) =
      Ok (Some (ds, us)) /\
    (forall (v e : nat) (w : Z),
        entry ds v e = Some w -> w <> -1 ->
        0 <= w < Z.of_nat (length (_vertices chain_connected)) /\
        exists (edge : Reach) (s : Z),
          _edges chain_connected !! e = Some edge /\
          bound_ends hypot_sqrt chain_connected edge = Some (s, Z.of_nat v)) /\
    (forall (v e : nat) (w : Z),
        entry us v e = Some w -> w <> -1 ->
        0 <= w < Z.of_nat (length (_vertices chain_connected)) /\
        exists (edge : Reach) (t : Z),
          _edges chain_connected !! e = Some edge /\
          bound_ends hypot_sqrt chain_connected edge = Some (Z.of_nat v, t) /\
          t <> Z.of_nat v).
Proof.
  apply (build_incidence_matrices_direction hypot_sqrt chain_connected 21).
  - vm_compute. edges_hold_points.
  - vm_compute. split; [discriminate|reflexivity].
  - vm_compute. lia.
Defined.

Lemma reach_reversed_witness :
  let edge := reach_along [node_at 40 0; node_at 30 0] in
  let reversed := reach_along [node_at 30 0; node_at 40 0] in
  (forall direction : string,
      direction <> "us"%string -> direction <> "ds"%string ->
      getPoint edge direction =
        Raise (KeyError "Node direction not properly defined: expected 'us' or 'ds'.")) /\
  getStart reversed = getEnd edge /\
  getEnd reversed = getStart edge /\
  bound_ends hypot_sqrt chain reversed =
    match bound_ends hypot_sqrt chain edge with
    | Some (s, t) => Some (t, s)
    | None => None
    end.
Proof.
  apply (reach_reversed hypot_sqrt (reach_along [node_at 40 0; node_at 30 0])
           (reach_along [node_at 30 0; node_at 40 0]) chain).
  reflexivity.
Defined.

Lemma builder_confluence_outlets_witness :
  let cs := [ mkConfluence (mkNode "c0" 0 0) false;
              mkConfluence (mkNode "c1" 1 0) true;
              mkConfluence (mkNode "c2" 2 0) false ] in
  exists before outlet after,
    three_confluences = before ++ outlet :: after /\
    py_eq_one (out_value outlet) = true /\
    Forall (fun f => py_eq_zero (out_value f) = true) (before ++ after) /\
    length cs = length (List.filter has_geometry three_confluences) /\
    outlet_count (map VConfluence cs) = (if has_geometry outlet then 1 else 0)%nat.
Proof.
  apply (builder_confluence_outlets accept_layer (fun s => s) name_of_string
           three_confluences).
  vm_compute. reflexivity.
Defined.


Lemma builder_confluence_connect_witness :
  let cs := [ mkConfluence (mkNode "c0" 0 0) false;
              mkConfluence (mkNode "c2" 2 0) false ] in
  (Forall (fun f => has_geometry f = true) outlet_without_geometry ->
   exists ds us idx,
     fst (connect hypot_sqrt (Catchment_init (Some cs) None None)) = Ok (ds, us) /\
     _out_node_index (snd (connect hypot_sqrt (Catchment_init (Some cs) None None))) = idx /\
     exists c, cs !! Z.to_nat idx = Some c /\ isOut c = true /\ 0 <= idx) /\
  (Exists (fun f => py_eq_one (out_value f) = true /\ has_geometry f = false)
     outlet_without_geometry ->
   connect hypot_sqrt (Catchment_init (Some cs) None None) =
     (Raise (ValueError "No 'out' node found in confluences."),
      Catchment_init (Some cs) None None)).
Proof.
  apply (builder_confluence_connect accept_layer (fun s => s) name_of_string hypot_sqrt
           outlet_without_geometry).
  - vm_compute. reflexivity.
  - constructor.
Defined.
